(** * Fuel-management server: storage layer and REST routes

    A shallow embedding of [server/storage.ts] (class [DatabaseStorage]) and
    of the handlers of [server/routes.ts] that touch vehicles, fuel
    balances, transactions and coupons, over the tables of
    [shared/schema.ts].

    Conventions of the embedding.
    - A [decimal(10,2)] column is an integer number of hundredths; the
      column refuses a value whose magnitude reaches 10^8 units
      ("numeric field overflow").
    - The JavaScript numbers met here are [parseFloat] of such a column
      (or of a coupon amount), so they are carried in hundredths as well.
    - [new Date()] and the [defaultNow()] columns read a clock that the
      caller passes as [now].
    - An [async] method is a function of the database, returning either a
      value or the error it throws together with the database it leaves
      behind: nothing is rolled back when a later statement throws.
    - Every user id handled is the id of a stored user (the session
      principal is upserted at sign-in), so the references to [users.id]
      are satisfied and the [users] table is not represented. *)

From Stdlib Require Import ZArith Ascii String.
From stdpp Require Import gmap strings list pretty sorting.

Local Open Scope Z_scope.
Local Open Scope string_scope.

(** ** Column types *)

Definition timestamp := Z.

(** [decimal(10,2)], in hundredths. *)
Definition decimal := Z.

Definition decimal_limit : Z := 10 ^ 10.

Definition decimal_fits (d : decimal) : Prop := Z.abs d < decimal_limit.

#[global] Instance decimal_fits_dec d : Decision (decimal_fits d).
Proof. unfold decimal_fits. apply _. Defined.

(** A JavaScript [number] holding a quantity with two decimals. *)
Definition number := Z.

Definition parseFloat (d : decimal) : number := d.

(** [pgEnum('vehicle_status', ...)] *)
Inductive VehicleStatus :=
  | pending | approved | rejected | active | suspended.

#[global] Instance VehicleStatus_eq_dec : EqDecision VehicleStatus.
Proof. solve_decision. Defined.

(** ** Rows

    The columns kept are those that the statements below read or write,
    and enough of the others to tell rows apart. *)

Module Vehicle.
Record t := mk {
    id : string;
    registrationNumber : string;
    ownerId : string;
    companyId : option string;
    vehicleType : string;
    fuelType : string;
    status : VehicleStatus;
    approvedAt : option timestamp;
    approvedBy : option string;
    rejectionReason : option string;
    createdAt : timestamp;
}.
End Vehicle.

Module FuelBalance.
(** A row of [fuel_balances]. The table is [unique().on(userId, fuelType)];
    the surrogate [id] is read by no query. *)
Record t := mk {
    userId : string;
    fuelType : string;
    balance : decimal;
    createdAt : timestamp;
    updatedAt : timestamp;
}.
End FuelBalance.

Module Transaction.
Record t := mk {
    id : string;
    userId : string;
    vehicleId : option string;
    merchantId : option string;
    transactionType : string;
    fuelType : option string;
    amount : decimal;
    monetaryValue : option decimal;
    status : string;
    createdAt : timestamp;
    completedAt : option timestamp;
}.
End Transaction.

Module Coupon.
Record t := mk {
    id : string;
    code : string;
    fuelType : string;
    amount : decimal;
    status : string;
    description : option string;
    expiryDate : option timestamp;
    usedAt : option timestamp;
    usedBy : option string;
    createdBy : string;
    createdAt : timestamp;
}.
End Coupon.

(** [InsertCoupon], as [createCoupon] receives it from the route: the
    parsed body plus [createdBy]. [amount] is the decimal that the text of
    the body denotes. [status] is optional in the insert schema and
    defaults to ['active'] in the table. *)
Module InsertCoupon.
Record t := mk {
    fuelType : string;
    amount : decimal;
    status : option string;
    description : option string;
    expiryDate : option timestamp;
    createdBy : string;
}.
End InsertCoupon.

(** ** The database *)

Record Db := mkDb {
  vehicles : list Vehicle.t;
  fuelBalances : gmap (string * string) FuelBalance.t;
  transactions : list Transaction.t;
  coupons : list Coupon.t;
}.

Definition with_vehicles (vs : list Vehicle.t) (db : Db) : Db :=
  mkDb vs (fuelBalances db) (transactions db) (coupons db).
Definition with_fuelBalances (fb : gmap (string * string) FuelBalance.t) (db : Db) : Db :=
  mkDb (vehicles db) fb (transactions db) (coupons db).
Definition with_transactions (ts : list Transaction.t) (db : Db) : Db :=
  mkDb (vehicles db) (fuelBalances db) ts (coupons db).
Definition with_coupons (cs : list Coupon.t) (db : Db) : Db :=
  mkDb (vehicles db) (fuelBalances db) (transactions db) cs.

Definition empty_db : Db := mkDb [] ∅ [] [].

(** ** Promises

    [Promise A] is an [async] computation against the database: it settles
    as [Fulfilled a] or as [Rejected e], and in both cases hands back the
    database as the statements already run left it. [Pending] is the
    promise of a loop that has not come to its end within the random
    draws supplied to it. *)

Record Error := mkError { message : string }.

Inductive Settled (A : Type) :=
  | Fulfilled (a : A)
  | Rejected (e : Error)
  | Pending.
Arguments Fulfilled {A} a.
Arguments Rejected {A} e.
Arguments Pending {A}.

Definition Promise (A : Type) : Type := Db → Settled A * Db.

Definition resolve {A} (a : A) : Promise A := λ db, (Fulfilled a, db).
Definition throw {A} (e : Error) : Promise A := λ db, (Rejected e, db).
Definition never {A} : Promise A := λ db, (Pending, db).

(** [await p] followed by the rest of the function body. *)
Definition await {A B} (p : Promise A) (k : A → Promise B) : Promise B :=
  λ db, match p db with
        | (Fulfilled a, db') => k a db'
        | (Rejected e, db') => (Rejected e, db')
        | (Pending, db') => (Pending, db')
        end.

Notation "'let*' x := p 'in' k" := (await p (λ x, k))
  (at level 10, x binder, p at level 100, k at level 200).

(** [try { body } catch (error) { handler }] *)
Definition try_catch {A} (body : Promise A) (handler : Error → Promise A) : Promise A :=
  λ db, match body db with
        | (Fulfilled a, db') => (Fulfilled a, db')
        | (Rejected e, db') => handler e db'
        | (Pending, db') => (Pending, db')
        end.

(** ** Query builder

    [db.update(t).set(f).where(P).returning()] rewrites the rows that match
    and returns them as rewritten, in table order. *)

Definition update_where {A} (P : A → Prop) `{∀ x, Decision (P x)}
    (f : A → A) (t : list A) : list A :=
  (λ r, if decide (P r) then f r else r) <$> t.

Definition returning {A} (P : A → Prop) `{∀ x, Decision (P x)}
    (f : A → A) (t : list A) : list A :=
  f <$> filter P t.

(** [db.select().from(t).where(P)] *)
Definition select_where {A} (P : A → Prop) `{∀ x, Decision (P x)}
    (t : list A) : list A :=
  filter P t.

(** [const [row] = ...]: the first element, [undefined] when there is none. *)
Definition first {A} (rows : list A) : option A := head rows.

(** [desc(col)]: [x] may stand before [y]. *)
Definition desc {A} (key : A → Z) : relation A := λ x y, (key y ≤ key x)%Z.

#[global] Instance desc_dec {A} (key : A → Z) : RelDecision (desc key).
Proof. intros x y. unfold desc. apply _. Defined.

(** [.orderBy(desc(col))]: the rows by descending [key]. *)
Definition order_by_desc {A} (key : A → Z) (t : list A) : list A :=
  merge_sort (desc key) t.

(** [.limit(n)]: the first [n] rows. The query builder writes a [limit]
    clause only for [n ≥ 0]; with a negative [n] the statement has none
    and every row comes back. *)
Definition limit {A} (n : Z) (rows : list A) : Promise (list A) :=
  if decide (n < 0) then resolve rows
  else resolve (take (Z.to_nat n) rows).

(** ** Rendering numbers *)

(** A [decimal(10,2)] value as the driver returns it: ["12.50"], ["-0.05"]. *)
Definition show_decimal (d : decimal) : string :=
  let n := Z.abs d in
  let frac := n mod 100 in
  (if decide (d < 0) then "-" else EmptyString) +:+
  pretty (n / 100) +:+ "." +:+
  (if decide (frac < 10) then "0" else EmptyString) +:+ pretty frac.

(** [String(x)] of a JavaScript number with at most two decimals: the
    shortest decimal that reads back as [x], so no trailing zeros and no
    point for an integer. *)
Definition Number_toString (x : number) : string :=
  let n := Z.abs x in
  let frac := n mod 100 in
  (if decide (x < 0) then "-" else EmptyString) +:+
  pretty (n / 100) +:+
  (if decide (frac = 0) then EmptyString
   else if decide (frac mod 10 = 0) then "." +:+ pretty (frac / 10)
   else if decide (frac < 10) then ".0" +:+ pretty frac
   else "." +:+ pretty frac).

(** [String.prototype.toUpperCase] on ASCII text. *)
Definition upper_ascii (c : ascii) : ascii :=
  let n := nat_of_ascii c in
  if decide (97 ≤ n ≤ 122)%nat then ascii_of_nat (n - 32) else c.

Fixpoint toUpperCase (s : string) : string :=
  match s with
  | EmptyString => EmptyString
  | String c s' => String (upper_ascii c) (toUpperCase s')
  end.

(** [s.substring(from, to)] for [from ≤ to]: the characters at positions
    [from .. to-1] that exist. *)
Definition js_substring (from to : nat) (s : string) : string :=
  substring from (to - from) s.

(** ** [DatabaseStorage] *)

Module storage.

(** *** Vehicle operations *)

Definition getVehicleById (id : string) : Promise (option Vehicle.t) :=
  λ db, (Fulfilled (first (select_where (λ v, Vehicle.id v = id) (vehicles db))), db).

Definition getPendingVehicles : Promise (list Vehicle.t) :=
  λ db,
    (Fulfilled (order_by_desc Vehicle.createdAt
                  (select_where (λ v, Vehicle.status v = pending) (vehicles db))),
     db).

(** [.set({ status: 'approved', approvedAt: new Date(), approvedBy: adminId })] *)
Definition set_approved (now : timestamp) (adminId : string) (v : Vehicle.t) : Vehicle.t :=
  Vehicle.mk (Vehicle.id v) (Vehicle.registrationNumber v) (Vehicle.ownerId v)
    (Vehicle.companyId v) (Vehicle.vehicleType v) (Vehicle.fuelType v)
    approved (Some now) (Some adminId)
    (Vehicle.rejectionReason v) (Vehicle.createdAt v).

(** [.set({ status: 'rejected', approvedBy: adminId, rejectionReason: reason })] *)
Definition set_rejected (adminId reason : string) (v : Vehicle.t) : Vehicle.t :=
  Vehicle.mk (Vehicle.id v) (Vehicle.registrationNumber v) (Vehicle.ownerId v)
    (Vehicle.companyId v) (Vehicle.vehicleType v) (Vehicle.fuelType v)
    rejected (Vehicle.approvedAt v) (Some adminId)
    (Some reason) (Vehicle.createdAt v).

Definition approveVehicle (now : timestamp) (vehicleId adminId : string)
    : Promise (option Vehicle.t) :=
  λ db,
    let hit := λ v, Vehicle.id v = vehicleId in
    let set := set_approved now adminId in
    (Fulfilled (first (returning hit set (vehicles db))),
     with_vehicles (update_where hit set (vehicles db)) db).

Definition rejectVehicle (vehicleId adminId reason : string)
    : Promise (option Vehicle.t) :=
  λ db,
    let hit := λ v, Vehicle.id v = vehicleId in
    let set := set_rejected adminId reason in
    (Fulfilled (first (returning hit set (vehicles db))),
     with_vehicles (update_where hit set (vehicles db)) db).

(** *** Fuel balance operations *)

Definition numeric_field_overflow : Error := mkError "numeric field overflow".

Definition getFuelBalance (userId fuelType : string) : Promise (option FuelBalance.t) :=
  λ db, (Fulfilled (fuelBalances db !! (userId, fuelType)), db).

(** [insert(...).values({ userId, fuelType, balance: amount.toString() })
     .onConflictDoUpdate({ target: [userId, fuelType],
        set: { balance: sql`balance + amount`, updatedAt: new Date() } })
     .returning()].
    The proposed row and the incremented balance are both values of the
    [decimal(10,2)] column. *)
Definition updateFuelBalance (now : timestamp) (userId fuelType : string) (amount : number)
    : Promise FuelBalance.t :=
  λ db,
    if decide (decimal_fits amount) then
      match fuelBalances db !! (userId, fuelType) with
      | None =>
          let row := FuelBalance.mk userId fuelType amount now now in
          (Fulfilled row,
           with_fuelBalances (<[(userId, fuelType) := row]> (fuelBalances db)) db)
      | Some old =>
          let sum := FuelBalance.balance old + amount in
          if decide (decimal_fits sum) then
            let row := FuelBalance.mk userId fuelType sum (FuelBalance.createdAt old) now in
            (Fulfilled row,
             with_fuelBalances (<[(userId, fuelType) := row]> (fuelBalances db)) db)
          else (Rejected numeric_field_overflow, db)
      end
    else (Rejected numeric_field_overflow, db).

(** [insert(...).values({ userId, fuelType, balance: '0.00' }).onConflictDoNothing()] *)
Definition insert_zero_balance (now : timestamp) (userId fuelType : string) : Promise () :=
  λ db,
    match fuelBalances db !! (userId, fuelType) with
    | Some _ => (Fulfilled (), db)
    | None =>
        (Fulfilled (),
         with_fuelBalances
           (<[(userId, fuelType) := FuelBalance.mk userId fuelType 0 now now]> (fuelBalances db))
           db)
    end.

(** [for (const x of xs) { await body(x) }] *)
Fixpoint for_of {A} (xs : list A) (body : A → Promise ()) : Promise () :=
  match xs with
  | [] => resolve ()
  | x :: rest => let* _ := body x in for_of rest body
  end.

Definition initializeFuelBalances (now : timestamp) (userId : string) : Promise () :=
  let fuelTypes := ["petrol"; "diesel"] in
  for_of fuelTypes (λ fuelType, insert_zero_balance now userId fuelType).

(** *** Transaction operations *)

Definition getTransactionById (id : string) : Promise (option Transaction.t) :=
  λ db, (Fulfilled (first (select_where (λ t, Transaction.id t = id) (transactions db))), db).

(** [.set({ status, completedAt })]: a key whose value is [undefined] is
    left out of the statement. *)
Definition set_status (status : string) (completedAt : option timestamp)
    (t : Transaction.t) : Transaction.t :=
  Transaction.mk (Transaction.id t) (Transaction.userId t) (Transaction.vehicleId t)
    (Transaction.merchantId t) (Transaction.transactionType t) (Transaction.fuelType t)
    (Transaction.amount t) (Transaction.monetaryValue t)
    status (Transaction.createdAt t)
    (match completedAt with
     | Some d => Some d
     | None => Transaction.completedAt t
     end).

Definition updateTransactionStatus (id status : string) (completedAt : option timestamp)
    : Promise (option Transaction.t) :=
  λ db,
    let hit := λ t, Transaction.id t = id in
    let set := set_status status completedAt in
    (Fulfilled (first (returning hit set (transactions db))),
     with_transactions (update_where hit set (transactions db)) db).

(** *** Coupon operations *)

Definition getCouponByCode (code : string) : Promise (option Coupon.t) :=
  λ db, (Fulfilled (first (select_where (λ c, Coupon.code c = code) (coupons db))), db).

(** [.set({ status: 'used', usedAt: new Date(), usedBy: userId })] *)
Definition set_used (now : timestamp) (userId : string) (c : Coupon.t) : Coupon.t :=
  Coupon.mk (Coupon.id c) (Coupon.code c) (Coupon.fuelType c) (Coupon.amount c)
    "used" (Coupon.description c) (Coupon.expiryDate c)
    (Some now) (Some userId) (Coupon.createdBy c) (Coupon.createdAt c).

Definition redeemCoupon (now : timestamp) (code userId : string) : Promise Coupon.t :=
  let* coupon :=
    (λ db,
       let hit := λ c, Coupon.code c = code ∧ Coupon.status c = "active" in
       let set := set_used now userId in
       (Fulfilled (first (returning hit set (coupons db))),
        with_coupons (update_where hit set (coupons db)) db)) in
  match coupon with
  | None => throw (mkError "Coupon not found or already used")
  | Some coupon => resolve coupon
  end.

Definition set_deactivated (c : Coupon.t) : Coupon.t :=
  Coupon.mk (Coupon.id c) (Coupon.code c) (Coupon.fuelType c) (Coupon.amount c)
    "deactivated" (Coupon.description c) (Coupon.expiryDate c)
    (Coupon.usedAt c) (Coupon.usedBy c) (Coupon.createdBy c) (Coupon.createdAt c).

Definition deactivateCoupon (id : string) : Promise (option Coupon.t) :=
  λ db,
    let hit := λ c, Coupon.id c = id in
    (Fulfilled (first (returning hit set_deactivated (coupons db))),
     with_coupons (update_where hit set_deactivated (coupons db)) db).

(** The code built in one turn of the loop from [fuelType], [amount] and
    the text [r] of [Math.random().toString(36)]. *)
Definition coupon_code (fuelType : string) (amount : number) (r : string) : string :=
  let prefix := if decide (fuelType = "petrol") then "PET" else "DSL" in
  let randomPart := toUpperCase (js_substring 2 8 r) in
  "FUEL-" +:+ prefix +:+ "-" +:+ Number_toString amount +:+ "L-" +:+ randomPart.

(** [while (!isUnique) { ... }], one turn per element of [draws], the
    successive values of [Math.random().toString(36)]. *)
Fixpoint generateUniqueCouponCode (draws : list string) (fuelType : string) (amount : number)
    : Promise string :=
  match draws with
  | [] => never
  | r :: rest =>
      let code := coupon_code fuelType amount r in
      let* existing := getCouponByCode code in
      match existing with
      | None => resolve code
      | Some _ => generateUniqueCouponCode rest fuelType amount
      end
  end.

Definition duplicate_key : Error :=
  mkError "duplicate key value violates unique constraint".

(** [db.insert(coupons).values({ ...data, code }).returning()]; [newId] is
    the value of [gen_random_uuid()]. *)
Definition insert_coupon (now : timestamp) (newId : string) (data : InsertCoupon.t)
    (code : string) : Promise Coupon.t :=
  λ db,
    if decide (decimal_fits (InsertCoupon.amount data)) then
      if decide (Exists (λ c, Coupon.code c = code) (coupons db)) then
        (Rejected duplicate_key, db)
      else
        let row := Coupon.mk newId code (InsertCoupon.fuelType data)
                     (InsertCoupon.amount data)
                     (default "active" (InsertCoupon.status data))
                     (InsertCoupon.description data) (InsertCoupon.expiryDate data)
                     None None (InsertCoupon.createdBy data) now in
        (Fulfilled row, with_coupons (coupons db ++ [row]) db)
    else (Rejected numeric_field_overflow, db).

Definition createCoupon (now : timestamp) (newId : string) (draws : list string)
    (data : InsertCoupon.t) : Promise Coupon.t :=
  let* code := generateUniqueCouponCode draws (InsertCoupon.fuelType data)
                 (parseFloat (InsertCoupon.amount data)) in
  insert_coupon now newId data code.

End storage.

(** ** HTTP layer *)

(** JSON values as [res.json] sends them; [JDate] stands for the ISO
    text of a timestamp. *)
#[local] Unset Elimination Schemes.
Inductive json :=
  | JNull
  | JStr (s : string)
  | JDate (t : timestamp)
  | JArr (items : list json)
  | JObj (fields : list (string * json)).
#[local] Set Elimination Schemes.

Definition nullable {A} (f : A → json) (o : option A) : json :=
  match o with
  | Some a => f a
  | None => JNull
  end.

Definition VehicleStatus_text (s : VehicleStatus) : string :=
  match s with
  | pending => "pending"
  | approved => "approved"
  | rejected => "rejected"
  | active => "active"
  | suspended => "suspended"
  end.

Definition vehicle_json (v : Vehicle.t) : json :=
  JObj [("id", JStr (Vehicle.id v));
        ("registrationNumber", JStr (Vehicle.registrationNumber v));
        ("ownerId", JStr (Vehicle.ownerId v));
        ("companyId", nullable JStr (Vehicle.companyId v));
        ("vehicleType", JStr (Vehicle.vehicleType v));
        ("fuelType", JStr (Vehicle.fuelType v));
        ("status", JStr (VehicleStatus_text (Vehicle.status v)));
        ("approvedAt", nullable JDate (Vehicle.approvedAt v));
        ("approvedBy", nullable JStr (Vehicle.approvedBy v));
        ("rejectionReason", nullable JStr (Vehicle.rejectionReason v));
        ("createdAt", JDate (Vehicle.createdAt v))].

Definition coupon_json (c : Coupon.t) : json :=
  JObj [("id", JStr (Coupon.id c));
        ("code", JStr (Coupon.code c));
        ("fuelType", JStr (Coupon.fuelType c));
        ("amount", JStr (show_decimal (Coupon.amount c)));
        ("status", JStr (Coupon.status c));
        ("description", nullable JStr (Coupon.description c));
        ("expiryDate", nullable JDate (Coupon.expiryDate c));
        ("usedAt", nullable JDate (Coupon.usedAt c));
        ("usedBy", nullable JStr (Coupon.usedBy c));
        ("createdBy", JStr (Coupon.createdBy c));
        ("createdAt", JDate (Coupon.createdAt c))].

Definition error_json (msg : string) : json := JObj [("error", JStr msg)].

Inductive Method := GET | POST | PATCH.

#[global] Instance Method_eq_dec : EqDecision Method.
Proof. solve_decision. Defined.

(** [Express.User], the principal that the session middleware puts in
    [req.user]. *)
Module User.
Record t := mk {
    id : string;
    userType : option string;
}.
End User.

(** The fields of [req.body] that the handlers below destructure. *)
Module Body.
Record t := mk {
    code : string;
    reason : string;
}.
End Body.

Module Request.
Record t := mk {
    method : Method;
    path : list string;
    user : option User.t;
    params : list (string * string);
    body : Body.t;
}.
End Request.

(** What the handler sent: [res.status(n).json(x)]. [body = None] is the
    empty body that [res.json(undefined)] sends. *)
Module Response.
Record t := mk {
    status : Z;
    body : option json;
}.
End Response.

Definition res_json (x : json) : Response.t := Response.mk 200 (Some x).
Definition res_status_json (n : Z) (x : json) : Response.t := Response.mk n (Some x).

(** [req.user?.id] *)
Definition user_id (req : Request.t) : option string := User.id <$> Request.user req.

(** [!userId]: [undefined] and the empty string are falsy. *)
Definition falsy (s : option string) : bool :=
  match s with
  | None => true
  | Some s => bool_decide (s = EmptyString)
  end.

(** [row?.balance || '0.00'] *)
Definition balance_or_default (row : option FuelBalance.t) : string :=
  match row with
  | None => "0.00"
  | Some r =>
      let s := show_decimal (FuelBalance.balance r) in
      if decide (s = EmptyString) then "0.00" else s
  end.

(** [req.params[name]]; the routes below read only names that their
    path binds. *)
Fixpoint lookup_param (name : string) (ps : list (string * string)) : string :=
  match ps with
  | [] => EmptyString
  | (k, v) :: rest => if decide (k = name) then v else lookup_param name rest
  end.

Definition param (name : string) (req : Request.t) : string :=
  lookup_param name (Request.params req).

Definition Handler := timestamp → Request.t → Promise Response.t.

Module routes.

(** First [app.get("/api/fuel-balances", ...)] of [registerRoutes]. *)
Definition get_fuel_balances : Handler := λ now req,
  try_catch
    (let userId := user_id req in
     match userId with
     | Some userId =>
         if falsy (Some userId) then
           resolve (res_status_json 401 (error_json "Not authenticated"))
         else
           let* _ := storage.initializeFuelBalances now userId in
           let* petrolBalance := storage.getFuelBalance userId "petrol" in
           let* dieselBalance := storage.getFuelBalance userId "diesel" in
           resolve (res_json (JArr [
             JObj [("fuelType", JStr "petrol");
                   ("balance", JStr (balance_or_default petrolBalance))];
             JObj [("fuelType", JStr "diesel");
                   ("balance", JStr (balance_or_default dieselBalance))]]))
     | None => resolve (res_status_json 401 (error_json "Not authenticated"))
     end)
    (λ _, resolve (res_status_json 500 (error_json "Failed to get fuel balances"))).

Definition patch_vehicle_approve : Handler := λ now req,
  try_catch
    (let id := param "id" req in
     let adminId := user_id req in
     match adminId with
     | Some adminId =>
         if falsy (Some adminId) then
           resolve (res_status_json 401 (error_json "Not authenticated"))
         else
           let* vehicle := storage.approveVehicle now id adminId in
           resolve (Response.mk 200 (vehicle_json <$> vehicle))
     | None => resolve (res_status_json 401 (error_json "Not authenticated"))
     end)
    (λ _, resolve (res_status_json 500 (error_json "Failed to approve vehicle"))).

Definition patch_vehicle_reject : Handler := λ now req,
  try_catch
    (let id := param "id" req in
     let reason := Body.reason (Request.body req) in
     let adminId := user_id req in
     match adminId with
     | Some adminId =>
         if falsy (Some adminId) then
           resolve (res_status_json 401 (error_json "Not authenticated"))
         else
           let* vehicle := storage.rejectVehicle id adminId reason in
           resolve (Response.mk 200 (vehicle_json <$> vehicle))
     | None => resolve (res_status_json 401 (error_json "Not authenticated"))
     end)
    (λ _, resolve (res_status_json 500 (error_json "Failed to reject vehicle"))).

(** Second [app.get("/api/fuel-balances", ...)] of [registerRoutes]. *)
Definition get_fuel_balances_2 : Handler := λ now req,
  try_catch
    (let userId := user_id req in
     match userId with
     | Some userId =>
         if falsy (Some userId) then
           resolve (res_status_json 401 (error_json "Not authenticated"))
         else
           let* petrolBalance := storage.getFuelBalance userId "petrol" in
           let* dieselBalance := storage.getFuelBalance userId "diesel" in
           resolve (res_json (JObj [
             ("petrol", JStr (balance_or_default petrolBalance));
             ("diesel", JStr (balance_or_default dieselBalance))]))
     | None => resolve (res_status_json 401 (error_json "Not authenticated"))
     end)
    (λ _, resolve (res_status_json 500 (error_json "Failed to get fuel balances"))).

(** [app.post("/api/coupons/redeem", ...)]. Whatever is thrown here is an
    [Error], so the reply carries its message. *)
Definition post_coupons_redeem : Handler := λ now req,
  try_catch
    (let code := Body.code (Request.body req) in
     let userId := user_id req in
     match userId with
     | Some userId =>
         if falsy (Some userId) then
           resolve (res_status_json 401 (error_json "Not authenticated"))
         else
           let* coupon := storage.redeemCoupon now code userId in
           let* _ := storage.updateFuelBalance now userId (Coupon.fuelType coupon)
                       (parseFloat (Coupon.amount coupon)) in
           resolve (res_json (coupon_json coupon))
     | None => resolve (res_status_json 401 (error_json "Not authenticated"))
     end)
    (λ error, resolve (res_status_json 400 (error_json (message error)))).

End routes.

(** *** Routing

    A path pattern is a list of segments; [:name] binds the segment it
    meets. A request path is the list of its non-empty segments, spelled
    as the registrations spell them: Express compares the literal
    segments without regard to case, ignores a trailing slash, and routes
    no request whose [:name] segment is empty. Express walks the registrations in order and runs the first
    whose method and path match; none of the handlers above calls
    [next()], so a later registration of the same method and path is never
    run. *)

Inductive Segment :=
  | Lit (s : string)
  | Par (name : string).

Fixpoint match_path (pat : list Segment) (p : list string) : option (list (string * string)) :=
  match pat, p with
  | [], [] => Some []
  | Lit s :: pat', x :: p' =>
      if decide (s = x) then match_path pat' p' else None
  | Par name :: pat', x :: p' =>
      (λ ps, (name, x) :: ps) <$> match_path pat' p'
  | _, _ => None
  end.

Record Route := mkRoute {
  route_method : Method;
  route_path : list Segment;
  route_handler : Handler;
}.

(** The registrations of [registerRoutes] for the endpoints modelled, in
    source order; those left out differ from each of these in method or
    in path. *)
Definition registerRoutes : list Route := [
  mkRoute GET [Lit "api"; Lit "fuel-balances"] routes.get_fuel_balances;
  mkRoute PATCH [Lit "api"; Lit "vehicles"; Par "id"; Lit "approve"] routes.patch_vehicle_approve;
  mkRoute PATCH [Lit "api"; Lit "vehicles"; Par "id"; Lit "reject"] routes.patch_vehicle_reject;
  mkRoute GET [Lit "api"; Lit "fuel-balances"] routes.get_fuel_balances_2;
  mkRoute POST [Lit "api"; Lit "coupons"; Lit "redeem"] routes.post_coupons_redeem
].

Definition with_params (ps : list (string * string)) (req : Request.t) : Request.t :=
  Request.mk (Request.method req) (Request.path req) (Request.user req) ps (Request.body req).

Fixpoint dispatch (app : list Route) (now : timestamp) (req : Request.t) : Promise Response.t :=
  match app with
  | [] => resolve (Response.mk 404 None)
  | r :: rest =>
      if decide (route_method r = Request.method req) then
        match match_path (route_path r) (Request.path req) with
        | Some ps => route_handler r now (with_params ps req)
        | None => dispatch rest now req
        end
      else dispatch rest now req
  end.

(** The server: one request against the database. *)
Definition serve (now : timestamp) (req : Request.t) : Promise Response.t :=
  dispatch registerRoutes now req.

(** ** Vocabulary of the properties *)

Definition not_redeemable : Error := mkError "Coupon not found or already used".

(** The [where] clause of [redeemCoupon]. *)
Definition redeemable (code : string) (c : Coupon.t) : Prop :=
  Coupon.code c = code ∧ Coupon.status c = "active".

#[global] Instance redeemable_dec code c : Decision (redeemable code c).
Proof. unfold redeemable. apply _. Defined.

(** The balance a user holds of a fuel kind: that of the row, 0 when
    there is no row. *)
Definition balance_of (db : Db) (userId fuelType : string) : decimal :=
  match fuelBalances db !! (userId, fuelType) with
  | Some row => FuelBalance.balance row
  | None => 0
  end.

(** [POST /api/coupons/redeem {code}] from principal [u]. *)
Definition redeem_request (u : User.t) (code : string) : Request.t :=
  Request.mk POST ["api"; "coupons"; "redeem"] (Some u) [] (Body.mk code EmptyString).

(** [GET /api/fuel-balances] from principal [u]. *)
Definition balances_request (u : User.t) : Request.t :=
  Request.mk GET ["api"; "fuel-balances"] (Some u) [] (Body.mk EmptyString EmptyString).

(** [PATCH /api/vehicles/:id/approve] and [.../reject {reason}]. *)
Definition approve_request (u : User.t) (vehicleId : string) : Request.t :=
  Request.mk PATCH ["api"; "vehicles"; vehicleId; "approve"] (Some u) [] (Body.mk EmptyString EmptyString).

Definition reject_request (u : User.t) (vehicleId reason : string) : Request.t :=
  Request.mk PATCH ["api"; "vehicles"; vehicleId; "reject"] (Some u) [] (Body.mk EmptyString reason).

(** *** Sample data *)

Definition alice : User.t := User.mk "u-alice" (Some "individual").
Definition root : User.t := User.mk "u-root" (Some "admin").

(** An active petrol coupon of 10.00 whose expiry date, 100, is past at
    time 200. *)
Definition stale_coupon : Coupon.t :=
  Coupon.mk "c-1" "FUEL-PET-10L-ABCD12" "petrol" 1000 "active" None (Some 100)
    None None "u-root" 50.

Definition stale_db : Db := mkDb [] ∅ [] [stale_coupon].

(** Two active petrol coupons, of 99999999.99 and of 10.00, and no
    balance row yet. *)
Definition huge_coupon : Coupon.t :=
  Coupon.mk "c-3" "FUEL-PET-99999999.99L-Z00000" "petrol" 9999999999 "active" None None
    None None "u-root" 50.

Definition fresh_coupon : Coupon.t :=
  Coupon.mk "c-2" "FUEL-PET-10L-K3X9Q2" "petrol" 1000 "active" None None
    None None "u-root" 50.

Definition two_coupons_db : Db := mkDb [] ∅ [] [huge_coupon; fresh_coupon].

(** *** The ledger under a sequence of calls *)

(** [for (const [now, d] of calls) await storage.updateFuelBalance(u, k, d)] *)
Definition apply_deltas (u k : string) (calls : list (timestamp * number)) : Promise () :=
  storage.for_of calls
    (λ call, let* _ := storage.updateFuelBalance (fst call) u k (snd call) in resolve ()).

Definition sum_deltas (calls : list (timestamp * number)) : Z :=
  foldr Z.add 0 (snd <$> calls).

(** Every delta and every balance met on the way, starting from [b], is a
    value of the [decimal(10,2)] column. *)
Fixpoint stays_in_range (b : decimal) (calls : list (timestamp * number)) : Prop :=
  match calls with
  | [] => True
  | call :: rest =>
      decimal_fits (snd call) ∧ decimal_fits (b + snd call) ∧
      stays_in_range (b + snd call) rest
  end.

(** *** The shape of a coupon code *)

Fixpoint string_forall (P : ascii → Prop) (s : string) : Prop :=
  match s with
  | EmptyString => True
  | String c s' => P c ∧ string_forall P s'
  end.

(** [0-9a-z], the digits that [toString(36)] writes. *)
Definition base36_digit (c : ascii) : Prop :=
  let n := nat_of_ascii c in (48 ≤ n ≤ 57 ∨ 97 ≤ n ≤ 122)%nat.

(** [A-Z0-9] *)
Definition upper_alnum (c : ascii) : Prop :=
  let n := nat_of_ascii c in (48 ≤ n ≤ 57 ∨ 65 ≤ n ≤ 90)%nat.

(** The text of [x.toString(36)] for a number [0 ≤ x < 1]: ["0"] for
    zero, otherwise ["0."] and as many base-36 digits as [x] needs;
    [(0.5).toString(36)] is ["0.i"]. *)
Definition base36_fraction (r : string) : Prop :=
  r = "0" ∨ ∃ digits, r = "0." +:+ digits ∧ digits ≠ EmptyString ∧ string_forall base36_digit digits.

(** The request body [{ fuelType: "petrol", amount: "10.00" }], created
    by the administrator. *)
Definition ten_litres : InsertCoupon.t :=
  InsertCoupon.mk "petrol" 1000 None None None "u-root".

(** *** Vehicles and transactions on file *)

(** A car that administrator [u-root] approved at time 10. *)
Definition approved_car : Vehicle.t :=
  Vehicle.mk "v-1" "ABC-1234" "u-alice" None "sedan" "petrol"
    approved (Some 10) (Some "u-root") None 5.

Definition garage_db : Db := mkDb [approved_car] ∅ [] [].

(** A purchase of 20.00 of petrol, completed at time 30. *)
Definition settled_purchase : Transaction.t :=
  Transaction.mk "t-1" "u-alice" (Some "v-1") None "fuel_purchase" (Some "petrol")
    2000 (Some 3000) "completed" 20 (Some 30).

Definition books_db : Db := mkDb [] ∅ [settled_purchase] [].

(** Two transactions of Alice and one of the administrator. *)
Definition open_top_up : Transaction.t :=
  Transaction.mk "t-2" "u-alice" None None "top_up" (Some "diesel")
    500 (Some 750) "pending" 40 None.

Definition other_purchase : Transaction.t :=
  Transaction.mk "t-3" "u-root" None (Some "m-1") "fuel_purchase" (Some "petrol")
    1500 (Some 2250) "completed" 35 (Some 36).

Definition ledger_db : Db := mkDb [] ∅ [settled_purchase; other_purchase; open_top_up] [].

(** ** [DatabaseStorage], the other methods on these tables *)

(** [InsertVehicle]: the insert schema leaves out [id], the timestamps,
    [approvedAt] and [approvedBy]; [status] is optional and defaults to
    ['pending'] in the table. *)
Module InsertVehicle.
Record t := mk {
    registrationNumber : string;
    ownerId : string;
    companyId : option string;
    vehicleType : string;
    fuelType : string;
    status : option VehicleStatus;
    rejectionReason : option string;
}.
End InsertVehicle.

(** [InsertTransaction]: the insert schema leaves out [id], [createdAt]
    and [completedAt]; [status] is optional and defaults to ['pending']. *)
Module InsertTransaction.
Record t := mk {
    userId : string;
    vehicleId : option string;
    merchantId : option string;
    transactionType : string;
    fuelType : option string;
    amount : decimal;
    monetaryValue : option decimal;
    status : option string;
}.
End InsertTransaction.

Module DatabaseStorage.

(** [db.insert(vehicles).values(vehicleData).returning()]; [newId] is the
    value of [gen_random_uuid()]. [id] is the primary key and
    [registrationNumber] is [unique()]. *)
Definition createVehicle (now : timestamp) (newId : string) (vehicleData : InsertVehicle.t)
    : Promise Vehicle.t :=
  λ db,
    if decide (Exists (λ v, Vehicle.id v = newId ∨
                            Vehicle.registrationNumber v =
                              InsertVehicle.registrationNumber vehicleData)
                 (vehicles db)) then
      (Rejected storage.duplicate_key, db)
    else
      let row := Vehicle.mk newId (InsertVehicle.registrationNumber vehicleData)
                   (InsertVehicle.ownerId vehicleData) (InsertVehicle.companyId vehicleData)
                   (InsertVehicle.vehicleType vehicleData) (InsertVehicle.fuelType vehicleData)
                   (default pending (InsertVehicle.status vehicleData))
                   None None (InsertVehicle.rejectionReason vehicleData) now in
      (Fulfilled row, with_vehicles (vehicles db ++ [row]) db).

Definition getVehiclesByOwner (ownerId : string) : Promise (list Vehicle.t) :=
  λ db,
    (Fulfilled (order_by_desc Vehicle.createdAt
                  (select_where (λ v, Vehicle.ownerId v = ownerId) (vehicles db))),
     db).

Definition getVehiclesByCompany (companyId : string) : Promise (list Vehicle.t) :=
  λ db,
    (Fulfilled (order_by_desc Vehicle.createdAt
                  (select_where (λ v, Vehicle.companyId v = Some companyId) (vehicles db))),
     db).

Definition getUserVehicles (userId : string) : Promise (list Vehicle.t) :=
  λ db,
    (Fulfilled (order_by_desc Vehicle.createdAt
                  (select_where (λ v, Vehicle.ownerId v = userId) (vehicles db))),
     db).

(** [db.insert(transactions).values(data).returning()]; [amount] and
    [monetaryValue] are [decimal(10,2)] columns. *)
Definition createTransaction (now : timestamp) (newId : string) (data : InsertTransaction.t)
    : Promise Transaction.t :=
  λ db,
    if decide (decimal_fits (InsertTransaction.amount data) ∧
               decimal_fits (default 0 (InsertTransaction.monetaryValue data))) then
      if decide (Exists (λ t, Transaction.id t = newId) (transactions db)) then
        (Rejected storage.duplicate_key, db)
      else
        let row := Transaction.mk newId (InsertTransaction.userId data)
                     (InsertTransaction.vehicleId data) (InsertTransaction.merchantId data)
                     (InsertTransaction.transactionType data) (InsertTransaction.fuelType data)
                     (InsertTransaction.amount data) (InsertTransaction.monetaryValue data)
                     (default "pending" (InsertTransaction.status data))
                     now None in
        (Fulfilled row, with_transactions (transactions db ++ [row]) db)
    else (Rejected storage.numeric_field_overflow, db).

(** [limit: number = 50] is the caller's business: every call below
    passes it. *)
Definition getTransactionsByUser (userId : string) (n : Z) : Promise (list Transaction.t) :=
  λ db,
    limit n (order_by_desc Transaction.createdAt
               (select_where (λ t, Transaction.userId t = userId) (transactions db))) db.

Definition getUserTransactions (userId : string) : Promise (list Transaction.t) :=
  getTransactionsByUser userId 20.

(** The class declares [getTransactionsByMerchant] twice; the later
    declaration, which filters on [merchantId], is the one in force. *)
Definition getTransactionsByMerchant (merchantId : string) (n : Z)
    : Promise (list Transaction.t) :=
  λ db,
    limit n (order_by_desc Transaction.createdAt
               (select_where (λ t, Transaction.merchantId t = Some merchantId)
                  (transactions db))) db.

Definition getActiveCoupons (n : Z) : Promise (list Coupon.t) :=
  λ db,
    limit n (order_by_desc Coupon.createdAt
               (select_where (λ c, Coupon.status c = "active") (coupons db))) db.

End DatabaseStorage.

(** ** The other routes on these tables *)

Definition transaction_json (t : Transaction.t) : json :=
  JObj [("id", JStr (Transaction.id t));
        ("userId", JStr (Transaction.userId t));
        ("vehicleId", nullable JStr (Transaction.vehicleId t));
        ("merchantId", nullable JStr (Transaction.merchantId t));
        ("transactionType", JStr (Transaction.transactionType t));
        ("fuelType", nullable JStr (Transaction.fuelType t));
        ("amount", JStr (show_decimal (Transaction.amount t)));
        ("monetaryValue", nullable (λ d, JStr (show_decimal d)) (Transaction.monetaryValue t));
        ("status", JStr (Transaction.status t));
        ("createdAt", JDate (Transaction.createdAt t));
        ("completedAt", nullable JDate (Transaction.completedAt t))].

Module handlers.

(** First [app.get("/api/transactions/my", ...)] of [registerRoutes]. *)
Definition get_transactions_my : Handler := λ now req,
  try_catch
    (let userId := user_id req in
     match userId with
     | Some userId =>
         if falsy (Some userId) then
           resolve (res_status_json 401 (error_json "Not authenticated"))
         else
           let* transactions := DatabaseStorage.getTransactionsByUser userId 20 in
           resolve (res_json (JArr (transaction_json <$> transactions)))
     | None => resolve (res_status_json 401 (error_json "Not authenticated"))
     end)
    (λ _, resolve (res_status_json 500 (error_json "Failed to get transactions"))).

Definition get_vehicles_my : Handler := λ now req,
  try_catch
    (let userId := user_id req in
     match userId with
     | Some userId =>
         if falsy (Some userId) then
           resolve (res_status_json 401 (error_json "Not authenticated"))
         else
           let* vehicles := DatabaseStorage.getVehiclesByOwner userId in
           resolve (res_json (JArr (vehicle_json <$> vehicles)))
     | None => resolve (res_status_json 401 (error_json "Not authenticated"))
     end)
    (λ _, resolve (res_status_json 500 (error_json "Failed to get vehicles"))).

Definition get_vehicles_pending : Handler := λ now req,
  try_catch
    (let* vehicles := storage.getPendingVehicles in
     resolve (res_json (JArr (vehicle_json <$> vehicles))))
    (λ _, resolve (res_status_json 500 (error_json "Failed to get pending vehicles"))).

Definition get_transactions_recent : Handler := λ now req,
  try_catch
    (let userId := user_id req in
     match userId with
     | Some userId =>
         if falsy (Some userId) then
           resolve (res_status_json 401 (error_json "Not authenticated"))
         else
           let* transactions := DatabaseStorage.getUserTransactions userId in
           resolve (res_json (JArr (transaction_json <$> transactions)))
     | None => resolve (res_status_json 401 (error_json "Not authenticated"))
     end)
    (λ _, resolve (res_status_json 500 (error_json "Failed to get transactions"))).

Definition get_vehicles_user : Handler := λ now req,
  try_catch
    (let userId := user_id req in
     match userId with
     | Some userId =>
         if falsy (Some userId) then
           resolve (res_status_json 401 (error_json "Not authenticated"))
         else
           let* vehicles := DatabaseStorage.getUserVehicles userId in
           resolve (res_json (JArr (vehicle_json <$> vehicles)))
     | None => resolve (res_status_json 401 (error_json "Not authenticated"))
     end)
    (λ _, resolve (res_status_json 500 (error_json "Failed to get user vehicles"))).

End handlers.

(** All the registrations of [registerRoutes], in source order. The
    handlers that read tables, query strings or bodies not represented
    here are taken as given: [other "GET /api/merchants"] and so on. *)
Definition all_routes (other : string → Handler) : list Route := [
  mkRoute GET [Lit "api"; Lit "auth"; Lit "user"] (other "GET /api/auth/user");
  mkRoute GET [Lit "api"; Lit "auth"; Lit "status"] (other "GET /api/auth/status");
  mkRoute GET [Lit "api"; Lit "dashboard"; Lit "stats"] (other "GET /api/dashboard/stats");
  mkRoute GET [Lit "api"; Lit "fuel-balances"] routes.get_fuel_balances;
  mkRoute GET [Lit "api"; Lit "transactions"; Lit "my"] handlers.get_transactions_my;
  mkRoute POST [Lit "api"; Lit "vehicles"] (other "POST /api/vehicles");
  mkRoute GET [Lit "api"; Lit "vehicles"; Lit "my"] handlers.get_vehicles_my;
  mkRoute GET [Lit "api"; Lit "vehicles"; Lit "pending"] handlers.get_vehicles_pending;
  mkRoute PATCH [Lit "api"; Lit "vehicles"; Par "id"; Lit "approve"] routes.patch_vehicle_approve;
  mkRoute PATCH [Lit "api"; Lit "vehicles"; Par "id"; Lit "reject"] routes.patch_vehicle_reject;
  mkRoute GET [Lit "api"; Lit "fuel-balances"] routes.get_fuel_balances_2;
  mkRoute POST [Lit "api"; Lit "transactions"] (other "POST /api/transactions");
  mkRoute GET [Lit "api"; Lit "transactions"; Lit "my"] (other "GET /api/transactions/my");
  mkRoute POST [Lit "api"; Lit "coupons"] (other "POST /api/coupons");
  mkRoute GET [Lit "api"; Lit "coupons"; Lit "active"] (other "GET /api/coupons/active");
  mkRoute POST [Lit "api"; Lit "coupons"; Lit "redeem"] routes.post_coupons_redeem;
  mkRoute GET [Lit "api"; Lit "merchants"] (other "GET /api/merchants");
  mkRoute POST [Lit "api"; Lit "merchants"] (other "POST /api/merchants");
  mkRoute GET [Lit "api"; Lit "companies"] (other "GET /api/companies");
  mkRoute POST [Lit "api"; Lit "companies"] (other "POST /api/companies");
  mkRoute GET [Lit "api"; Lit "transactions"; Lit "recent"] handlers.get_transactions_recent;
  mkRoute POST [Lit "api"; Lit "transactions"; Lit "fuel-purchase"]
    (other "POST /api/transactions/fuel-purchase");
  mkRoute POST [Lit "api"; Lit "transactions"; Lit "transfer"]
    (other "POST /api/transactions/transfer");
  mkRoute POST [Lit "api"; Lit "transactions"; Lit "top-up"]
    (other "POST /api/transactions/top-up");
  mkRoute GET [Lit "api"; Lit "transaction-limits"] (other "GET /api/transaction-limits");
  mkRoute GET [Lit "api"; Lit "vehicles"; Lit "user"] handlers.get_vehicles_user;
  mkRoute GET [Lit "api"; Lit "merchants"; Lit "active"] (other "GET /api/merchants/active")
].

(** A route answers a request when the method is its own and the path
    fits its pattern. *)
Definition route_matches (r : Route) (req : Request.t) : Prop :=
  route_method r = Request.method req ∧
  is_Some (match_path (route_path r) (Request.path req)).

#[global] Instance route_matches_dec r req : Decision (route_matches r req).
Proof. unfold route_matches. apply _. Defined.

(** A request with method and path only. *)
Definition get_request (u : option User.t) (path : list string) : Request.t :=
  Request.mk GET path u [] (Body.mk EmptyString EmptyString).

(** ** Histories

    The calls that change the database, and what a sequence of them
    leaves behind. *)

Inductive Op :=
  | CreateVehicle (now : timestamp) (newId : string) (data : InsertVehicle.t)
  | ApproveVehicle (now : timestamp) (vehicleId adminId : string)
  | RejectVehicle (vehicleId adminId reason : string)
  | UpdateFuelBalance (now : timestamp) (userId fuelType : string) (amount : number)
  | InitializeFuelBalances (now : timestamp) (userId : string)
  | CreateTransaction (now : timestamp) (newId : string) (data : InsertTransaction.t)
  | UpdateTransactionStatus (id status : string) (completedAt : option timestamp)
  | CreateCoupon (now : timestamp) (newId : string) (draws : list string)
      (data : InsertCoupon.t)
  | RedeemCoupon (now : timestamp) (code userId : string)
  | DeactivateCoupon (id : string)
  | Serve (now : timestamp) (req : Request.t).

(** The database a promise leaves behind, however it settles. *)
Definition after {A} (p : Promise A) (db : Db) : Db := snd (p db).

Definition exec (op : Op) : Db → Db :=
  match op with
  | CreateVehicle now newId data => after (DatabaseStorage.createVehicle now newId data)
  | ApproveVehicle now vehicleId adminId => after (storage.approveVehicle now vehicleId adminId)
  | RejectVehicle vehicleId adminId reason =>
      after (storage.rejectVehicle vehicleId adminId reason)
  | UpdateFuelBalance now userId fuelType amount =>
      after (storage.updateFuelBalance now userId fuelType amount)
  | InitializeFuelBalances now userId => after (storage.initializeFuelBalances now userId)
  | CreateTransaction now newId data => after (DatabaseStorage.createTransaction now newId data)
  | UpdateTransactionStatus id status completedAt =>
      after (storage.updateTransactionStatus id status completedAt)
  | CreateCoupon now newId draws data => after (storage.createCoupon now newId draws data)
  | RedeemCoupon now code userId => after (storage.redeemCoupon now code userId)
  | DeactivateCoupon id => after (storage.deactivateCoupon id)
  | Serve now req => after (serve now req)
  end.

Definition run (ops : list Op) (db : Db) : Db := foldl (λ db op, exec op db) db ops.

(** A code that is on file and that no active coupon carries. *)
Definition spent (code : string) (db : Db) : Prop :=
  (∃ c, c ∈ coupons db ∧ Coupon.code c = code) ∧
  ∀ c, c ∈ coupons db → Coupon.code c = code → Coupon.status c ≠ "active".

(** The keys that the schema declares unique. *)
Definition keys_unique (db : Db) : Prop :=
  NoDup (Coupon.code <$> coupons db) ∧
  NoDup (Vehicle.id <$> vehicles db) ∧
  NoDup (Vehicle.registrationNumber <$> vehicles db) ∧
  NoDup (Transaction.id <$> transactions db).

(** *** More sample data *)

Definition new_car : InsertVehicle.t :=
  InsertVehicle.mk "XYZ-9876" "u-alice" None "suv" "diesel" None None.

Definition same_plate : InsertVehicle.t :=
  InsertVehicle.mk "ABC-1234" "u-root" None "truck" "diesel" None None.

(** The handlers that answer for the signed-in user. *)
Definition user_scoped : list Handler := [
  routes.get_fuel_balances;
  handlers.get_transactions_my;
  handlers.get_vehicles_my;
  routes.patch_vehicle_approve;
  routes.patch_vehicle_reject;
  routes.get_fuel_balances_2;
  routes.post_coupons_redeem;
  handlers.get_transactions_recent;
  handlers.get_vehicles_user
].

(** *** Footprints

    What one call may do to a table: leave it, rewrite rows in place by
    one of the [set] clauses, or append one row that the unique
    constraints admit. *)

Definition coupons_moved (t t' : list Coupon.t) : Prop :=
  t' = t ∨
  (∃ now code userId, t' = update_where (redeemable code) (storage.set_used now userId) t) ∨
  (∃ id, t' = update_where (λ c, Coupon.id c = id) storage.set_deactivated t) ∨
  (∃ c, t' = (t ++ [c])%list ∧ ∀ c0, c0 ∈ t → Coupon.code c0 ≠ Coupon.code c).

Definition vehicles_moved (t t' : list Vehicle.t) : Prop :=
  t' = t ∨
  (∃ now id adminId,
     t' = update_where (λ v, Vehicle.id v = id) (storage.set_approved now adminId) t) ∨
  (∃ id adminId reason,
     t' = update_where (λ v, Vehicle.id v = id) (storage.set_rejected adminId reason) t) ∨
  (∃ v, t' = (t ++ [v])%list ∧
        ∀ w, w ∈ t → Vehicle.id w ≠ Vehicle.id v ∧
                     Vehicle.registrationNumber w ≠ Vehicle.registrationNumber v).

Definition transactions_moved (t t' : list Transaction.t) : Prop :=
  t' = t ∨
  (∃ id status completedAt,
     t' = update_where (λ x, Transaction.id x = id) (storage.set_status status completedAt) t) ∨
  (∃ x, t' = (t ++ [x])%list ∧ ∀ w, w ∈ t → Transaction.id w ≠ Transaction.id x).

Definition balances_kept (fb fb' : gmap (string * string) FuelBalance.t) : Prop :=
  ∀ key, is_Some (fb !! key) → is_Some (fb' !! key).

Definition moved (db db' : Db) : Prop :=
  coupons_moved (coupons db) (coupons db') ∧
  vehicles_moved (vehicles db) (vehicles db') ∧
  transactions_moved (transactions db) (transactions db') ∧
  balances_kept (fuelBalances db) (fuelBalances db').

(** The columns of a coupon, a vehicle and a transaction that identify
    it and say what it is worth. *)
Definition same_coupon (c c' : Coupon.t) : Prop :=
  Coupon.id c' = Coupon.id c ∧ Coupon.code c' = Coupon.code c ∧
  Coupon.fuelType c' = Coupon.fuelType c ∧ Coupon.amount c' = Coupon.amount c ∧
  Coupon.createdBy c' = Coupon.createdBy c.

Definition same_vehicle (v v' : Vehicle.t) : Prop :=
  Vehicle.id v' = Vehicle.id v ∧
  Vehicle.registrationNumber v' = Vehicle.registrationNumber v ∧
  Vehicle.ownerId v' = Vehicle.ownerId v ∧ Vehicle.fuelType v' = Vehicle.fuelType v.

Definition same_transaction (t t' : Transaction.t) : Prop :=
  Transaction.id t' = Transaction.id t ∧ Transaction.userId t' = Transaction.userId t ∧
  Transaction.transactionType t' = Transaction.transactionType t ∧
  Transaction.fuelType t' = Transaction.fuelType t ∧
  Transaction.amount t' = Transaction.amount t ∧
  Transaction.monetaryValue t' = Transaction.monetaryValue t.

(** * Properties *)

(** ** Rendering *)

Example show_decimal_ex :
  show_decimal 1250 = "12.50" ∧ show_decimal 0 = "0.00" ∧ show_decimal (-5) = "-0.05".
Proof. vm_compute. auto. Qed.

Example Number_toString_ex :
  Number_toString 1000 = "10" ∧ Number_toString 1050 = "10.5" ∧
  Number_toString 1025 = "10.25" ∧ Number_toString 5 = "0.05".
Proof. vm_compute. auto. Qed.

Example random_part_ex :
  toUpperCase (js_substring 2 8 "0.k3x9q2m7f1c") = "K3X9Q2" ∧
  toUpperCase (js_substring 2 8 "0.i") = "I" ∧
  toUpperCase (js_substring 2 8 "0") = EmptyString.
Proof. vm_compute. auto. Qed.

(** ** The query builder *)

Section query_builder.
Context {A : Type} (P : A → Prop) `{∀ x, Decision (P x)} (f : A → A).

Lemma update_where_no_match (t : list A) :
  Forall (λ r, ¬ P r) t → update_where P f t = t.
Proof.
  unfold update_where. induction 1 as [|r t Hr _ IH]; [done|].
  rewrite fmap_cons, decide_False by done. by f_equal.
Qed.

Lemma returning_no_match (t : list A) :
  Forall (λ r, ¬ P r) t → returning P f t = [].
Proof.
  unfold returning. induction 1 as [|r t Hr _ IH]; [done|].
  by rewrite filter_cons_False.
Qed.

Lemma returning_nil_inv (t : list A) :
  returning P f t = [] → Forall (λ r, ¬ P r) t.
Proof.
  unfold returning. intros Hnil. apply fmap_nil_inv in Hnil.
  apply Forall_forall. intros r Hr HP.
  assert (r ∈ filter P t) as Hin by (apply list_elem_of_filter; done).
  rewrite Hnil in Hin. by apply not_elem_of_nil in Hin.
Qed.

Lemma first_returning_Some (t : list A) (r' : A) :
  first (returning P f t) = Some r' → ∃ r, r ∈ t ∧ P r ∧ r' = f r.
Proof.
  unfold first, returning. intros Hhd.
  apply head_Some_elem_of in Hhd.
  apply list_elem_of_fmap in Hhd as (r & -> & Hr).
  apply list_elem_of_filter in Hr as [HP Hr]. eauto.
Qed.

Lemma first_returning_match (t : list A) (r : A) :
  r ∈ t → P r → is_Some (first (returning P f t)).
Proof.
  intros Hr HP. unfold first, returning.
  destruct (filter P t) as [|x l] eqn:Hf; simpl; [|eauto].
  assert (r ∈ filter P t) as Hin by (apply list_elem_of_filter; done).
  rewrite Hf in Hin. by apply not_elem_of_nil in Hin.
Qed.

Lemma elem_of_update_where_hit (t : list A) (r : A) :
  r ∈ t → P r → f r ∈ update_where P f t.
Proof.
  intros Hr HP. unfold update_where.
  apply list_elem_of_fmap. exists r. by rewrite decide_True.
Qed.

Lemma elem_of_update_where_miss (t : list A) (r : A) :
  r ∈ t → ¬ P r → r ∈ update_where P f t.
Proof.
  intros Hr HP. unfold update_where.
  apply list_elem_of_fmap. exists r. by rewrite decide_False.
Qed.

Lemma elem_of_update_where_inv (t : list A) (r' : A) :
  r' ∈ update_where P f t →
  (∃ r, r ∈ t ∧ P r ∧ r' = f r) ∨ (r' ∈ t ∧ ¬ P r').
Proof.
  unfold update_where. intros Hin.
  apply list_elem_of_fmap in Hin as (r & -> & Hr).
  destruct (decide (P r)); eauto.
Qed.

End query_builder.

Lemma with_coupons_id db : with_coupons (coupons db) db = db.
Proof. by destruct db. Qed.

Lemma with_vehicles_id db : with_vehicles (vehicles db) db = db.
Proof. by destruct db. Qed.

Lemma with_transactions_id db : with_transactions (transactions db) db = db.
Proof. by destruct db. Qed.

(** ** Coupon redemption *)

Lemma redeemCoupon_unfold now code userId db :
  storage.redeemCoupon now code userId db =
  let db' := with_coupons
               (update_where (redeemable code) (storage.set_used now userId) (coupons db)) db in
  match first (returning (redeemable code) (storage.set_used now userId) (coupons db)) with
  | Some c => (Fulfilled c, db')
  | None => (Rejected not_redeemable, db')
  end.
Proof.
  unfold storage.redeemCoupon, await, redeemable. simpl.
  by destruct (first _).
Qed.

Lemma redeemCoupon_rejected now code userId db :
  (∀ c, c ∈ coupons db → Coupon.code c = code → Coupon.status c ≠ "active") →
  storage.redeemCoupon now code userId db = (Rejected not_redeemable, db).
Proof.
  intros Hnone. rewrite redeemCoupon_unfold. simpl.
  assert (Forall (λ c, ¬ redeemable code c) (coupons db)) as Hall.
  { apply Forall_forall. intros c Hc [Hcode Hst]. by apply (Hnone c). }
  rewrite returning_no_match, update_where_no_match by done.
  by rewrite with_coupons_id.
Qed.


Lemma redeemCoupon_inv now code userId db c' db' :
  storage.redeemCoupon now code userId db = (Fulfilled c', db') →
  ∃ c0, c0 ∈ coupons db ∧ redeemable code c0 ∧ c' = storage.set_used now userId c0 ∧
    db' = with_coupons
            (update_where (redeemable code) (storage.set_used now userId) (coupons db)) db.
Proof.
  rewrite redeemCoupon_unfold. simpl.
  destruct (first _) as [c1|] eqn:Hfirst; [|done].
  intros [= <- <-].
  apply first_returning_Some in Hfirst as (c0 & Hc0 & Hred & ->). eauto.
Qed.

(** After a redemption pass over the table, no coupon with that code is
    active any more. *)
Lemma none_active_after_redeem now code userId (t : list Coupon.t) c :
  c ∈ update_where (redeemable code) (storage.set_used now userId) t →
  Coupon.code c = code → Coupon.status c ≠ "active".
Proof.
  intros Hin Hcode.
  apply elem_of_update_where_inv in Hin as [(c0 & _ & _ & ->)|[_ Hmiss]].
  - simpl. discriminate.
  - intros Hst. apply Hmiss. by split.
Qed.



(** ** The balance ledger *)

Lemma updateFuelBalance_fulfilled_inv now u k a db row db' :
  storage.updateFuelBalance now u k a db = (Fulfilled row, db') →
  balance_of db' u k = balance_of db u k + a ∧
  FuelBalance.balance row = balance_of db' u k ∧
  fuelBalances db' = <[(u, k) := row]> (fuelBalances db) ∧
  coupons db' = coupons db ∧ vehicles db' = vehicles db ∧
  transactions db' = transactions db.
Proof.
  unfold storage.updateFuelBalance, balance_of.
  destruct (decide (decimal_fits a)); [|done].
  destruct (fuelBalances db !! (u, k)) as [old|] eqn:Hold.
  - destruct (decide (decimal_fits _)); [|done].
    intros [= <- <-]. simpl. rewrite lookup_insert_eq. done.
  - intros [= <- <-]. simpl. rewrite lookup_insert_eq. done.
Qed.

Lemma updateFuelBalance_rejected_inv now u k a db e db' :
  storage.updateFuelBalance now u k a db = (Rejected e, db') →
  e = storage.numeric_field_overflow ∧ db' = db.
Proof.
  unfold storage.updateFuelBalance.
  destruct (decide (decimal_fits a)); [|by intros [= <- <-]].
  destruct (fuelBalances db !! (u, k)) as [old|]; [|done].
  destruct (decide (decimal_fits _)); [done|]. by intros [= <- <-].
Qed.

Lemma updateFuelBalance_settles now u k a db db' :
  storage.updateFuelBalance now u k a db ≠ (Pending, db').
Proof.
  unfold storage.updateFuelBalance.
  repeat case_decide; try done. destruct (fuelBalances db !! (u, k)); [|done].
  case_decide; done.
Qed.

(** ** The redeem route *)

Lemma serve_redeem now u code :
  serve now (redeem_request u code) = routes.post_coupons_redeem now (redeem_request u code).
Proof. reflexivity. Qed.

Lemma post_coupons_redeem_unfold now u code db :
  User.id u ≠ EmptyString →
  routes.post_coupons_redeem now (redeem_request u code) db =
  match storage.redeemCoupon now code (User.id u) db with
  | (Fulfilled c, db1) =>
      match storage.updateFuelBalance now (User.id u) (Coupon.fuelType c)
              (parseFloat (Coupon.amount c)) db1 with
      | (Fulfilled _, db2) => (Fulfilled (res_json (coupon_json c)), db2)
      | (Rejected e, db2) => (Fulfilled (res_status_json 400 (error_json (message e))), db2)
      | (Pending, db2) => (Pending, db2)
      end
  | (Rejected e, db1) => (Fulfilled (res_status_json 400 (error_json (message e))), db1)
  | (Pending, db1) => (Pending, db1)
  end.
Proof.
  intros Hu. unfold routes.post_coupons_redeem, try_catch, user_id. simpl.
  rewrite bool_decide_eq_false_2 by done. unfold await.
  destruct (storage.redeemCoupon _ _ _ _) as [[c|e|] db1]; [|done..].
  destruct (storage.updateFuelBalance _ _ _ _ _) as [[row|e|] db2]; done.
Qed.

Lemma post_coupons_redeem_unauthenticated now u code db :
  User.id u = EmptyString →
  routes.post_coupons_redeem now (redeem_request u code) db =
  (Fulfilled (res_status_json 401 (error_json "Not authenticated")), db).
Proof.
  intros Hu. unfold routes.post_coupons_redeem, try_catch, user_id. simpl.
  by rewrite bool_decide_eq_true_2.
Qed.

(** A coupon code that [redeemCoupon] has just accepted is refused from
    then on, whoever asks. *)
Lemma redeemCoupon_twice now1 now2 code u1 u2 db c db1 :
  storage.redeemCoupon now1 code u1 db = (Fulfilled c, db1) →
  storage.redeemCoupon now2 code u2 db1 = (Rejected not_redeemable, db1).
Proof.
  intros Hrun. apply redeemCoupon_inv in Hrun as (c0 & _ & _ & _ & ->).
  apply redeemCoupon_rejected. simpl. intros c1 Hc1.
  exact (none_active_after_redeem _ _ _ _ _ Hc1).
Qed.

(** The credited case. Once [redeemCoupon] has accepted a code for [u1], a second
    [redeemCoupon] of the same code, by [u1] or by anyone else, throws
    'Coupon not found or already used' and changes nothing. At the route:
    when [POST /api/coupons/redeem] answers 200 to [u1], the reply is the
    coupon, now ['used'] by [u1]; a second request for the same code, from
    any authenticated user, is answered 400 with that message and changes
    nothing, so the balance of [u1] in the coupon's fuel kind stands at
    its earlier value plus the coupon's amount, once. *)
Lemma redeem_twice now1 now2 code u1 u2 db :
  (∀ c db1,
     storage.redeemCoupon now1 code (User.id u1) db = (Fulfilled c, db1) →
     storage.redeemCoupon now2 code (User.id u2) db1 = (Rejected not_redeemable, db1)) ∧
  (∀ resp db1,
     User.id u2 ≠ EmptyString →
     serve now1 (redeem_request u1 code) db = (Fulfilled resp, db1) →
     Response.status resp = 200 →
     ∃ c,
       resp = res_json (coupon_json c) ∧
       c ∈ coupons db1 ∧ Coupon.code c = code ∧ Coupon.status c = "used" ∧
       Coupon.usedBy c = Some (User.id u1) ∧
       storage.redeemCoupon now2 code (User.id u2) db1 = (Rejected not_redeemable, db1) ∧
       serve now2 (redeem_request u2 code) db1 =
         (Fulfilled (res_status_json 400 (error_json "Coupon not found or already used")),
          db1) ∧
       balance_of db1 (User.id u1) (Coupon.fuelType c) =
         balance_of db (User.id u1) (Coupon.fuelType c) + Coupon.amount c).
Proof.
  split; [intros c db1; apply redeemCoupon_twice|].
  intros resp db1 Hu2 Hrun Hstatus. rewrite serve_redeem in Hrun.
  destruct (decide (User.id u1 = EmptyString)) as [Hu1|Hu1].
  { rewrite post_coupons_redeem_unauthenticated in Hrun by done.
    injection Hrun as <- <-. discriminate. }
  rewrite post_coupons_redeem_unfold in Hrun by done.
  destruct (storage.redeemCoupon now1 code (User.id u1) db) as [[c|e|] db0] eqn:Hredeem;
    [|injection Hrun as <- <-; discriminate|discriminate].
  destruct (storage.updateFuelBalance _ _ _ _ db0) as [[row|e|] db2] eqn:Hcredit;
    [|injection Hrun as <- <-; discriminate|discriminate].
  injection Hrun as <- <-.
  apply updateFuelBalance_fulfilled_inv in Hcredit
    as (Hbal & _ & _ & Hcoupons & _ & _).
  assert (storage.redeemCoupon now2 code (User.id u2) db2 = (Rejected not_redeemable, db2))
    as Hsecond.
  { apply redeemCoupon_rejected. rewrite Hcoupons. intros c1 Hc1.
    apply redeemCoupon_inv in Hredeem as (c0 & _ & _ & _ & ->).
    exact (none_active_after_redeem _ _ _ _ _ Hc1). }
  pose proof Hredeem as Hinv.
  apply redeemCoupon_inv in Hinv as (c0 & Hc0 & [Hcode Hactive] & -> & ->).
  exists (storage.set_used now1 (User.id u1) c0). repeat split; try done.
  - rewrite Hcoupons. simpl. by apply elem_of_update_where_hit.
  - rewrite serve_redeem, post_coupons_redeem_unfold by done. by rewrite Hsecond.
Qed.

Lemma redeem_twice_witness :
  let db1 := snd (serve 200 (redeem_request alice "FUEL-PET-10L-ABCD12") stale_db) in
  serve 300 (redeem_request root "FUEL-PET-10L-ABCD12") db1 =
    (Fulfilled (res_status_json 400 (error_json "Coupon not found or already used")), db1).
Proof.
  intros db1.
  destruct (proj2 (redeem_twice 200 300 "FUEL-PET-10L-ABCD12" alice root stale_db)
              (res_json (coupon_json (storage.set_used 200 "u-alice" stale_coupon))) db1)
    as (c & _ & _ & _ & _ & _ & _ & Hsecond & _).
  - discriminate.
  - reflexivity.
  - reflexivity.
  - exact Hsecond.
Defined.

(** ** Partial application of a redemption *)

(** C8, at the failing input. Alice redeems the coupon of 99999999.99 and
    is credited. She then redeems the coupon of 10.00: the request marks
    it ['used'] by her, the credit is refused by the [decimal(10,2)]
    column, the route answers 400, and the database keeps the coupon used
    while her balance stands where it was. *)
Theorem redeem_marks_used_without_credit :
  ∃ db1 db2,
    serve 100 (redeem_request alice "FUEL-PET-99999999.99L-Z00000") two_coupons_db =
      (Fulfilled (res_json (coupon_json (storage.set_used 100 "u-alice" huge_coupon))), db1) ∧
    serve 200 (redeem_request alice "FUEL-PET-10L-K3X9Q2") db1 =
      (Fulfilled (res_status_json 400 (error_json "numeric field overflow")), db2) ∧
    coupons db2 = [storage.set_used 100 "u-alice" huge_coupon;
                   storage.set_used 200 "u-alice" fresh_coupon] ∧
    balance_of db1 "u-alice" "petrol" = 9999999999 ∧
    balance_of db2 "u-alice" "petrol" = 9999999999.
Proof.
  eexists _, _. split; [|split; [|split; [|split]]].
  - rewrite serve_redeem, post_coupons_redeem_unfold by done.
    rewrite redeemCoupon_unfold. reflexivity.
  - rewrite serve_redeem, post_coupons_redeem_unfold by done.
    rewrite redeemCoupon_unfold. reflexivity.
  - reflexivity.
  - reflexivity.
  - reflexivity.
Qed.

(** C1, at the failing input. Alice has redeemed the coupon of
    99999999.99 and holds that much petrol. Her request for the coupon of
    10.00 calls [redeemCoupon], which succeeds and returns the coupon
    marked ['used'] by her; a second [redeemCoupon] of the code, by
    anyone, throws 'Coupon not found or already used', as it should; but
    the credit that the route runs after the first call is refused by the
    [decimal(10,2)] column, so her balance reflects no credit of the
    coupon's amount: it is what it was, not that plus 10.00. *)
Theorem redeemed_once_credited_never :
  let db1 := after (serve 100 (redeem_request alice "FUEL-PET-99999999.99L-Z00000"))
               two_coupons_db in
  let db2 := after (serve 200 (redeem_request alice "FUEL-PET-10L-K3X9Q2")) db1 in
  storage.redeemCoupon 200 "FUEL-PET-10L-K3X9Q2" "u-alice" db1 =
    (Fulfilled (storage.set_used 200 "u-alice" fresh_coupon),
     after (storage.redeemCoupon 200 "FUEL-PET-10L-K3X9Q2" "u-alice") db1) ∧
  serve 200 (redeem_request alice "FUEL-PET-10L-K3X9Q2") db1 =
    (Fulfilled (res_status_json 400 (error_json "numeric field overflow")), db2) ∧
  storage.set_used 200 "u-alice" fresh_coupon ∈ coupons db2 ∧
  storage.redeemCoupon 300 "FUEL-PET-10L-K3X9Q2" "u-alice" db2 =
    (Rejected not_redeemable, db2) ∧
  storage.redeemCoupon 300 "FUEL-PET-10L-K3X9Q2" "u-root" db2 =
    (Rejected not_redeemable, db2) ∧
  Coupon.fuelType fresh_coupon = "petrol" ∧ Coupon.amount fresh_coupon = 1000 ∧
  balance_of db1 "u-alice" "petrol" = 9999999999 ∧
  balance_of db2 "u-alice" "petrol" = 9999999999 ∧
  balance_of db2 "u-alice" "petrol" ≠
    balance_of db1 "u-alice" "petrol" + Coupon.amount fresh_coupon.
Proof.
  intros db1 db2. subst db1 db2.
  split; [|split; [|split; [|split; [|split; [|split; [|split; [|split; [|split]]]]]]]].
  - rewrite redeemCoupon_unfold. reflexivity.
  - rewrite serve_redeem, post_coupons_redeem_unfold by done.
    rewrite redeemCoupon_unfold. reflexivity.
  - unfold after. rewrite serve_redeem, post_coupons_redeem_unfold by done.
    rewrite redeemCoupon_unfold. simpl. apply list_elem_of_further, list_elem_of_here.
  - reflexivity.
  - reflexivity.
  - reflexivity.
  - reflexivity.
  - reflexivity.
  - reflexivity.
  - discriminate.
Qed.

(** ** Sums of deltas *)

Lemma apply_deltas_cons u k now d rest db :
  apply_deltas u k ((now, d) :: rest) db =
  match storage.updateFuelBalance now u k d db with
  | (Fulfilled _, db1) => apply_deltas u k rest db1
  | (Rejected e, db1) => (Rejected e, db1)
  | (Pending, db1) => (Pending, db1)
  end.
Proof.
  unfold apply_deltas. simpl. unfold await at 1 2. simpl.
  by destruct (storage.updateFuelBalance now u k d db) as [[row|e|] db1].
Qed.

Lemma updateFuelBalance_fulfilled now u k a db :
  decimal_fits a → decimal_fits (balance_of db u k + a) →
  ∃ row db', storage.updateFuelBalance now u k a db = (Fulfilled row, db').
Proof.
  unfold storage.updateFuelBalance, balance_of. intros Ha Hsum.
  rewrite decide_True by done.
  destruct (fuelBalances db !! (u, k)) as [old|]; [|eauto].
  rewrite decide_True by done. eauto.
Qed.

Lemma updateFuelBalance_keeps_row now u k a db row db' :
  storage.updateFuelBalance now u k a db = (Fulfilled row, db') →
  fuelBalances db' !! (u, k) = Some row.
Proof.
  intros Hrun. apply updateFuelBalance_fulfilled_inv in Hrun as (_ & _ & -> & _).
  apply lookup_insert_eq.
Qed.

Lemma sum_deltas_cons now d rest :
  sum_deltas ((now, d) :: rest) = d + sum_deltas rest.
Proof. reflexivity. Qed.

Lemma sum_deltas_permutation calls calls' :
  calls' ≡ₚ calls → sum_deltas calls' = sum_deltas calls.
Proof.
  induction 1 as [|[t d] l l' _ IH|[t1 d1] [t2 d2] l|l1 l2 l3 _ IH1 _ IH2].
  - done.
  - rewrite !sum_deltas_cons. lia.
  - rewrite !sum_deltas_cons. lia.
  - congruence.
Qed.

(** A run of calls that all come back leaves the balance raised by their
    sum, and a row in place as soon as one call was made. *)
Lemma apply_deltas_fulfilled_inv u k calls : ∀ db db',
  apply_deltas u k calls db = (Fulfilled (), db') →
  balance_of db' u k = balance_of db u k + sum_deltas calls ∧
  (calls ≠ [] ∨ is_Some (fuelBalances db !! (u, k)) →
   is_Some (fuelBalances db' !! (u, k))).
Proof.
  induction calls as [|[now d] rest IH]; intros db db' Hrun.
  - injection Hrun as <-. unfold sum_deltas. simpl. split; [lia|].
    by intros [?|?].
  - rewrite apply_deltas_cons in Hrun.
    destruct (storage.updateFuelBalance now u k d db) as [[row|e|] db1] eqn:Hstep;
      [|done..].
    pose proof (updateFuelBalance_keeps_row _ _ _ _ _ _ _ Hstep) as Hrow.
    apply updateFuelBalance_fulfilled_inv in Hstep as (Hbal & _).
    apply IH in Hrun as [Hsum Hsome]. rewrite sum_deltas_cons. split; [lia|].
    intros _. apply Hsome. right. by rewrite Hrow.
Qed.

(** A run whose deltas and running balances stay in the column's range
    comes back. *)
Lemma apply_deltas_fulfilled u k calls : ∀ db,
  stays_in_range (balance_of db u k) calls →
  ∃ db', apply_deltas u k calls db = (Fulfilled (), db').
Proof.
  induction calls as [|[now d] rest IH]; intros db Hfit.
  - by exists db.
  - destruct Hfit as (Hd & Hsum & Hrest). simpl in *.
    rewrite apply_deltas_cons.
    destruct (updateFuelBalance_fulfilled now u k d db Hd Hsum) as (row & db1 & Hstep).
    rewrite Hstep.
    apply updateFuelBalance_fulfilled_inv in Hstep as (Hbal & _).
    apply IH. by rewrite Hbal.
Qed.

(** C3, as it holds. From a database with no row for [(u, k)], take the
    calls [updateFuelBalance(u, k, d1)], ..., [updateFuelBalance(u, k, dn)]
    in any order. If the deltas and the running balances of that order
    stay within the [decimal(10,2)] column, the calls all come back; and
    whenever they all come back, the balance is [d1 + ... + dn], held in a
    stored row as soon as [n > 0]: the first call stores its delta as if
    the row had stood at 0. *)
Theorem ledger_sum u k calls calls' db :
  fuelBalances db !! (u, k) = None →
  calls' ≡ₚ calls →
  (stays_in_range 0 calls' → ∃ db', apply_deltas u k calls' db = (Fulfilled (), db')) ∧
  (∀ db', apply_deltas u k calls' db = (Fulfilled (), db') →
     balance_of db' u k = sum_deltas calls ∧
     (calls ≠ [] →
      ∃ row, fuelBalances db' !! (u, k) = Some row ∧
             FuelBalance.balance row = sum_deltas calls)).
Proof.
  intros Hnone Hperm.
  assert (balance_of db u k = 0) as Hzero by (unfold balance_of; by rewrite Hnone).
  split.
  - intros Hfit. apply apply_deltas_fulfilled. by rewrite Hzero.
  - intros db' Hrun.
    apply apply_deltas_fulfilled_inv in Hrun as [Hsum Hsome].
    rewrite Hzero, (sum_deltas_permutation _ _ Hperm) in Hsum.
    split; [lia|]. intros Hne.
    destruct Hsome as [row Hrow].
    { left. intros ->. apply Permutation_nil_l in Hperm. done. }
    exists row. split; [done|]. unfold balance_of in Hsum. rewrite Hrow in Hsum. lia.
Qed.

Lemma ledger_sum_witness :
  ∃ db',
    apply_deltas "u-alice" "diesel" [(3, -250); (1, 1000); (2, 500)] empty_db =
      (Fulfilled (), db') ∧
    balance_of db' "u-alice" "diesel" = 1250.
Proof.
  destruct (ledger_sum "u-alice" "diesel" [(1, 1000); (2, 500); (3, -250)]
              [(3, -250); (1, 1000); (2, 500)] empty_db) as [Hruns Hsum].
  - reflexivity.
  - exact (Permutation_cons_append [(1, 1000); (2, 500)] (3, -250)).
  - destruct Hruns as [db' Hrun].
    + vm_compute. intuition discriminate.
    + exists db'. split; [exact Hrun|]. exact (proj1 (Hsum db' Hrun)).
Defined.

(** C3 as stated fails at the edge of the column. A single delta of
    100000000.00 on a missing row is refused and nothing is stored; and
    the deltas 99999999.99, 0.01, -0.01 come back in the order
    0.01, -0.01, 99999999.99 but not in the order 99999999.99, 0.01, -0.01,
    which stops with the balance at 99999999.99 after its first call. *)
Lemma ledger_sum_overflow :
  apply_deltas "u-alice" "petrol" [(1, 10000000000)] empty_db =
    (Rejected storage.numeric_field_overflow, empty_db) ∧
  fuelBalances empty_db !! ("u-alice", "petrol") = None ∧
  (∃ db', apply_deltas "u-alice" "petrol" [(1, 1); (2, -1); (3, 9999999999)] empty_db =
            (Fulfilled (), db') ∧
          balance_of db' "u-alice" "petrol" = 9999999999) ∧
  (∃ db', apply_deltas "u-alice" "petrol" [(1, 9999999999); (2, 1); (3, -1)] empty_db =
            (Rejected storage.numeric_field_overflow, db') ∧
          balance_of db' "u-alice" "petrol" = 9999999999).
Proof.
  split; [reflexivity|]. split; [reflexivity|]. split.
  - eexists. split; reflexivity.
  - eexists. split; reflexivity.
Qed.

(** ** Coupon codes *)

Lemma getCouponByCode_unfold code db :
  storage.getCouponByCode code db =
  (Fulfilled (first (select_where (λ c, Coupon.code c = code) (coupons db))), db).
Proof. reflexivity. Qed.

Lemma first_select_None {A} (P : A → Prop) `{∀ x, Decision (P x)} (t : list A) :
  first (select_where P t) = None ↔ ∀ r, r ∈ t → ¬ P r.
Proof.
  unfold first, select_where. rewrite head_None. split.
  - intros Hnil r Hr HP.
    assert (r ∈ filter P t) as Hin by (apply list_elem_of_filter; done).
    rewrite Hnil in Hin. by apply not_elem_of_nil in Hin.
  - intros Hall. induction t as [|r t IH]; [done|].
    rewrite filter_cons_False by (apply Hall; left).
    apply IH. intros r' Hr'. apply Hall. by right.
Qed.

Lemma generate_step r rest fuelType amount db :
  storage.generateUniqueCouponCode (r :: rest) fuelType amount db =
  match first (select_where (λ c, Coupon.code c = storage.coupon_code fuelType amount r)
                 (coupons db)) with
  | None => (Fulfilled (storage.coupon_code fuelType amount r), db)
  | Some _ => storage.generateUniqueCouponCode rest fuelType amount db
  end.
Proof.
  simpl. unfold await. rewrite getCouponByCode_unfold.
  by destruct (first _).
Qed.

Lemma generate_fulfilled_inv fuelType amount db code db' : ∀ draws,
  storage.generateUniqueCouponCode draws fuelType amount db = (Fulfilled code, db') →
  db' = db ∧
  first (select_where (λ c, Coupon.code c = code) (coupons db)) = None ∧
  ∃ r, r ∈ draws ∧ code = storage.coupon_code fuelType amount r.
Proof.
  induction draws as [|r rest IH]; [done|].
  rewrite generate_step. intros Hrun.
  destruct (first (select_where
                     (λ c, Coupon.code c = storage.coupon_code fuelType amount r) _))
    as [c|] eqn:Hlook.
  - destruct (IH Hrun) as (-> & Hnone & r' & Hr' & ->).
    split; [done|]. split; [done|]. exists r'. split; [by right|done].
  - injection Hrun as <- <-. split; [done|]. split; [done|]. exists r. split; [left|done].
Qed.

Lemma generate_not_rejected fuelType amount db e db' : ∀ draws,
  storage.generateUniqueCouponCode draws fuelType amount db ≠ (Rejected e, db').
Proof.
  induction draws as [|r rest IH]; [done|].
  rewrite generate_step. by destruct (first _).
Qed.

Lemma generate_returns fuelType amount db : ∀ draws,
  (∃ r, r ∈ draws ∧
        ∀ c, c ∈ coupons db → Coupon.code c ≠ storage.coupon_code fuelType amount r) →
  ∃ code, storage.generateUniqueCouponCode draws fuelType amount db = (Fulfilled code, db).
Proof.
  induction draws as [|r rest IH]; intros (r0 & Hr0 & Hfree).
  - by apply not_elem_of_nil in Hr0.
  - rewrite generate_step.
    destruct (first _) as [c|] eqn:Hlook; [|eauto].
    apply IH. exists r0. split; [|done].
    apply elem_of_cons in Hr0 as [->|Hr0]; [|done].
    apply (first_select_None (λ c, Coupon.code c = storage.coupon_code fuelType amount r))
      in Hfree. congruence.
Qed.

Lemma createCoupon_fulfilled_inv now newId draws data db c db' :
  storage.createCoupon now newId draws data db = (Fulfilled c, db') →
  coupons db' = (coupons db ++ [c])%list ∧
  (∀ c0, c0 ∈ coupons db → Coupon.code c0 ≠ Coupon.code c) ∧
  ∃ r, r ∈ draws ∧
       Coupon.code c = storage.coupon_code (InsertCoupon.fuelType data)
                         (parseFloat (InsertCoupon.amount data)) r.
Proof.
  unfold storage.createCoupon, await.
  destruct (storage.generateUniqueCouponCode _ _ _ _) as [[code|e|] db1] eqn:Hgen; [|done..].
  apply generate_fulfilled_inv in Hgen as (-> & Hnone & r & Hr & ->).
  unfold storage.insert_coupon.
  destruct (decide (decimal_fits _)); [|done].
  destruct (decide (Exists _ _)); [done|].
  intros [= <- <-]. simpl. split; [done|]. split; [|eauto].
  intros c0 Hc0 Hcode.
  exact (proj1 (first_select_None _ _) Hnone c0 Hc0 Hcode).
Qed.

(** C4. Whatever the store holds and whatever the random draws are, a
    code that [generateUniqueCouponCode] returns is the code of no coupon
    in the store, whatever the status of those coupons: it was built from
    one of the draws, the lookup [getCouponByCode] finds nothing for it,
    and the store is as before. The loop never throws, and it does return
    as soon as one of the draws gives an unused code. A coupon that
    [createCoupon] then stores is appended under a code that no earlier
    coupon carries. *)
Theorem generateUniqueCouponCode_fresh draws fuelType amount db :
  (∀ code db',
     storage.generateUniqueCouponCode draws fuelType amount db = (Fulfilled code, db') →
     db' = db ∧
     (∀ c, c ∈ coupons db → Coupon.code c ≠ code) ∧
     storage.getCouponByCode code db = (Fulfilled None, db) ∧
     ∃ r, r ∈ draws ∧ code = storage.coupon_code fuelType amount r) ∧
  (∀ e db', storage.generateUniqueCouponCode draws fuelType amount db ≠ (Rejected e, db')) ∧
  ((∃ r, r ∈ draws ∧
         ∀ c, c ∈ coupons db → Coupon.code c ≠ storage.coupon_code fuelType amount r) →
   ∃ code, storage.generateUniqueCouponCode draws fuelType amount db = (Fulfilled code, db)) ∧
  (∀ now newId data c db',
     storage.createCoupon now newId draws data db = (Fulfilled c, db') →
     coupons db' = (coupons db ++ [c])%list ∧
     ∀ c0, c0 ∈ coupons db → Coupon.code c0 ≠ Coupon.code c).
Proof.
  split; [|split; [|split]].
  - intros code db' Hrun.
    apply generate_fulfilled_inv in Hrun as (-> & Hnone & Hdraw).
    split; [done|]. split; [|split; [|done]].
    + intros c Hc Hcode.
      exact (proj1 (first_select_None _ _) Hnone c Hc Hcode).
    + rewrite getCouponByCode_unfold. by rewrite Hnone.
  - intros e db'. apply generate_not_rejected.
  - apply generate_returns.
  - intros now newId data c db' Hrun.
    apply createCoupon_fulfilled_inv in Hrun as (Happ & Hfresh & _). done.
Qed.

Lemma generateUniqueCouponCode_fresh_witness :
  storage.generateUniqueCouponCode ["0.abcd12zz"; "0.k3x9q2m7"] "petrol" 1000 stale_db =
    (Fulfilled "FUEL-PET-10L-K3X9Q2", stale_db) ∧
  ∀ c, c ∈ coupons stale_db → Coupon.code c ≠ "FUEL-PET-10L-K3X9Q2".
Proof.
  split; [reflexivity|].
  apply (proj1 (generateUniqueCouponCode_fresh ["0.abcd12zz"; "0.k3x9q2m7"] "petrol" 1000
                  stale_db) "FUEL-PET-10L-K3X9Q2" stale_db).
  reflexivity.
Defined.

(** *** Shape *)

Lemma toUpperCase_length s : String.length (toUpperCase s) = String.length s.
Proof. induction s as [|c s IH]; simpl; [done|]. by rewrite IH. Qed.

Lemma substring_length s : ∀ n m,
  String.length (substring n m s) = Nat.min m (String.length s - n).
Proof.
  induction s as [|c s IH]; intros [|n] [|m];
    cbn [substring String.length]; rewrite ?IH; lia.
Qed.

Lemma string_forall_substring P s : ∀ n m,
  string_forall P s → string_forall P (substring n m s).
Proof.
  induction s as [|c s IH]; intros [|n] [|m]; simpl; try done.
  - intros [Hc Hs]. split; [done|]. by apply IH.
  - intros [_ Hs]. by apply IH.
  - intros [_ Hs]. by apply IH.
Qed.

Lemma upper_ascii_alnum c : base36_digit c → upper_alnum (upper_ascii c).
Proof.
  unfold base36_digit, upper_alnum, upper_ascii. simpl. intros [Hdigit|Hletter].
  - rewrite decide_False by lia. by left.
  - rewrite decide_True by lia.
    rewrite nat_ascii_embedding by lia. right. lia.
Qed.

Lemma string_forall_toUpperCase s :
  string_forall base36_digit s → string_forall upper_alnum (toUpperCase s).
Proof.
  induction s as [|c s IH]; simpl; [done|].
  intros [Hc Hs]. split; [by apply upper_ascii_alnum|by apply IH].
Qed.

(** X16. What one turn of the loop builds: [FUEL-], the tag [PET] or [DSL],
    the amount as JavaScript prints the number, [L-], and a token of
    upper-case letters and digits that is as long as the draw has digits,
    up to six. *)
Lemma coupon_code_shape fuelType amount r :
  base36_fraction r →
  ∃ kind token,
    storage.coupon_code fuelType amount r =
      "FUEL-" +:+ kind +:+ "-" +:+ Number_toString amount +:+ "L-" +:+ token ∧
    (kind = "PET" ∨ kind = "DSL") ∧
    (kind = "PET" ↔ fuelType = "petrol") ∧
    string_forall upper_alnum token ∧
    String.length token = Nat.min 6 (String.length r - 2).
Proof.
  intros Hr. unfold storage.coupon_code.
  exists (if decide (fuelType = "petrol") then "PET" else "DSL"),
         (toUpperCase (js_substring 2 8 r)).
  split; [done|]. split; [case_decide; auto|]. split.
  { case_decide; split; done. }
  split.
  - destruct Hr as [->|(digits & -> & _ & Hdigits)]; [done|].
    apply string_forall_toUpperCase. unfold js_substring. simpl.
    by apply string_forall_substring.
  - unfold js_substring. by rewrite toUpperCase_length, substring_length.
Qed.

Lemma coupon_code_shape_witness :
  ∃ kind token,
    storage.coupon_code "petrol" 1000 "0.k3x9q2m7f1c" =
      "FUEL-" +:+ kind +:+ "-" +:+ "10" +:+ "L-" +:+ token ∧
    String.length token = 6%nat.
Proof.
  destruct (coupon_code_shape "petrol" 1000 "0.k3x9q2m7f1c")
    as (kind & token & Hcode & _ & _ & _ & Hlen).
  - right. exists "k3x9q2m7f1c". split; [reflexivity|]. split; [discriminate|].
    vm_compute. intuition lia.
  - exists kind, token. split; [exact Hcode|exact Hlen].
Defined.

(** C5, at the failing input. [Math.random()] returns 0.5, which
    [toString(36)] prints as ["0.i"]: the coupon created for
    [{ fuelType: "petrol", amount: "10.00" }] gets the code
    [FUEL-PET-10L-I], whose token has one character, so the code is not
    [FUEL-PET-10L-] followed by six characters. *)
Theorem coupon_code_short_token :
  storage.createCoupon 100 "c-9" ["0.i"] ten_litres empty_db =
    (Fulfilled (Coupon.mk "c-9" "FUEL-PET-10L-I" "petrol" 1000 "active" None None
                  None None "u-root" 100),
     mkDb [] ∅ [] [Coupon.mk "c-9" "FUEL-PET-10L-I" "petrol" 1000 "active" None None
                     None None "u-root" 100]) ∧
  base36_fraction "0.i" ∧
  ∀ token, String.length token = 6%nat → "FUEL-PET-10L-I" ≠ "FUEL-PET-10L-" +:+ token.
Proof.
  split; [reflexivity|]. split.
  - right. exists "i". split; [reflexivity|]. split; [discriminate|].
    vm_compute. intuition lia.
  - intros token Hlen Heq. cbv in Heq. injection Heq as Heq. subst token. discriminate.
Qed.

(** ** Vehicle approval *)

Lemma approveVehicle_unfold now vehicleId adminId db :
  storage.approveVehicle now vehicleId adminId db =
  (Fulfilled (first (returning (λ v, Vehicle.id v = vehicleId)
                       (storage.set_approved now adminId) (vehicles db))),
   with_vehicles (update_where (λ v, Vehicle.id v = vehicleId)
                    (storage.set_approved now adminId) (vehicles db)) db).
Proof. reflexivity. Qed.

Lemma rejectVehicle_unfold vehicleId adminId reason db :
  storage.rejectVehicle vehicleId adminId reason db =
  (Fulfilled (first (returning (λ v, Vehicle.id v = vehicleId)
                       (storage.set_rejected adminId reason) (vehicles db))),
   with_vehicles (update_where (λ v, Vehicle.id v = vehicleId)
                    (storage.set_rejected adminId reason) (vehicles db)) db).
Proof. reflexivity. Qed.

(** What an [update ... where id = vehicleId ... returning] does to a
    table that holds a row with that id. *)
Lemma update_by_id_hit (set : Vehicle.t → Vehicle.t) vehicleId (t : list Vehicle.t) v :
  (∀ w, Vehicle.id (set w) = Vehicle.id w) →
  v ∈ t → Vehicle.id v = vehicleId →
  ∃ v0, v0 ∈ t ∧ Vehicle.id v0 = vehicleId ∧
    first (returning (λ w, Vehicle.id w = vehicleId) set t) = Some (set v0) ∧
    set v ∈ update_where (λ w, Vehicle.id w = vehicleId) set t ∧
    (∀ w, w ∈ update_where (λ w, Vehicle.id w = vehicleId) set t →
          Vehicle.id w = vehicleId → ∃ w0, w0 ∈ t ∧ w = set w0) ∧
    (∀ w, w ∈ t → Vehicle.id w ≠ vehicleId →
          w ∈ update_where (λ w, Vehicle.id w = vehicleId) set t).
Proof.
  intros Hid Hv Hmatch.
  destruct (first_returning_match (λ w, Vehicle.id w = vehicleId) set t v Hv Hmatch)
    as [v' Hfirst].
  pose proof Hfirst as Hinv.
  apply first_returning_Some in Hinv as (v0 & Hv0 & Hv0id & ->).
  exists v0. split; [done|]. split; [done|]. split; [done|]. split; [|split].
  - by apply elem_of_update_where_hit.
  - intros w Hw Hwid.
    apply elem_of_update_where_inv in Hw as [(w0 & Hw0 & _ & ->)|[_ Hmiss]]; [eauto|done].
  - intros w Hw Hwid. by apply elem_of_update_where_miss.
Qed.

(** C6, as it holds. [approveVehicle] and [rejectVehicle] do not look at
    the current status. For a stored vehicle with the given id, in any
    status, [approveVehicle] is fulfilled with a record of that id whose
    status is ['approved'], approved at the time of the call by the given
    administrator, and [rejectVehicle] with a record of that id whose
    status is ['rejected'], with that administrator and reason; after the
    call every stored vehicle of that id carries the new status, the
    vehicles of other ids are kept, and neither call is ever refused. *)
Theorem approve_reject_any_status now vehicleId adminId reason db v :
  v ∈ vehicles db → Vehicle.id v = vehicleId →
  (∃ v' db',
     storage.approveVehicle now vehicleId adminId db = (Fulfilled (Some v'), db') ∧
     Vehicle.id v' = vehicleId ∧ Vehicle.status v' = approved ∧
     Vehicle.approvedAt v' = Some now ∧ Vehicle.approvedBy v' = Some adminId ∧
     storage.set_approved now adminId v ∈ vehicles db' ∧
     (∀ w, w ∈ vehicles db' → Vehicle.id w = vehicleId → Vehicle.status w = approved) ∧
     (∀ w, w ∈ vehicles db → Vehicle.id w ≠ vehicleId → w ∈ vehicles db')) ∧
  (∃ v' db',
     storage.rejectVehicle vehicleId adminId reason db = (Fulfilled (Some v'), db') ∧
     Vehicle.id v' = vehicleId ∧ Vehicle.status v' = rejected ∧
     Vehicle.approvedBy v' = Some adminId ∧ Vehicle.rejectionReason v' = Some reason ∧
     storage.set_rejected adminId reason v ∈ vehicles db' ∧
     (∀ w, w ∈ vehicles db' → Vehicle.id w = vehicleId → Vehicle.status w = rejected) ∧
     (∀ w, w ∈ vehicles db → Vehicle.id w ≠ vehicleId → w ∈ vehicles db')).
Proof.
  intros Hv Hid. split.
  - destruct (update_by_id_hit (storage.set_approved now adminId) vehicleId (vehicles db) v)
      as (v0 & _ & Hv0 & Hfirst & Hin & Hall & Hrest); [done..|].
    rewrite approveVehicle_unfold, Hfirst. eexists _, _. split; [done|].
    simpl. repeat split; try done.
    intros w Hw Hwid. destruct (Hall w Hw Hwid) as (w0 & _ & ->). done.
  - destruct (update_by_id_hit (storage.set_rejected adminId reason) vehicleId (vehicles db) v)
      as (v0 & _ & Hv0 & Hfirst & Hin & Hall & Hrest); [done..|].
    rewrite rejectVehicle_unfold, Hfirst. eexists _, _. split; [done|].
    simpl. repeat split; try done.
    intros w Hw Hwid. destruct (Hall w Hw Hwid) as (w0 & _ & ->). done.
Qed.

Lemma approve_reject_any_status_witness :
  ∃ v' db',
    storage.rejectVehicle "v-1" "u-root" "papers missing" garage_db =
      (Fulfilled (Some v'), db') ∧
    Vehicle.status v' = rejected.
Proof.
  destruct (approve_reject_any_status 40 "v-1" "u-root" "papers missing" garage_db approved_car)
    as [_ (v' & db' & Hrun & _ & Hstatus & _)].
  - apply list_elem_of_here.
  - reflexivity.
  - exists v', db'. split; [exact Hrun|exact Hstatus].
Defined.

(** C6 as stated fails on a car that is already approved: rejecting it is
    not refused, it rewrites the record to ['rejected']; approving it
    again is not refused either and moves [approvedAt]. *)
Lemma reject_after_approve :
  Vehicle.status approved_car ≠ pending ∧
  storage.rejectVehicle "v-1" "u-root" "papers missing" garage_db =
    (Fulfilled (Some (storage.set_rejected "u-root" "papers missing" approved_car)),
     mkDb [storage.set_rejected "u-root" "papers missing" approved_car] ∅ [] []) ∧
  storage.set_rejected "u-root" "papers missing" approved_car ≠ approved_car ∧
  storage.approveVehicle 40 "v-1" "u-root" garage_db =
    (Fulfilled (Some (storage.set_approved 40 "u-root" approved_car)),
     mkDb [storage.set_approved 40 "u-root" approved_car] ∅ [] []) ∧
  storage.set_approved 40 "u-root" approved_car ≠ approved_car.
Proof. repeat split; done. Qed.

(** ** Transaction status *)

Lemma updateTransactionStatus_unfold id status completedAt db :
  storage.updateTransactionStatus id status completedAt db =
  (Fulfilled (first (returning (λ t, Transaction.id t = id)
                       (storage.set_status status completedAt) (transactions db))),
   with_transactions (update_where (λ t, Transaction.id t = id)
                        (storage.set_status status completedAt) (transactions db)) db).
Proof. reflexivity. Qed.

(** C7, as it holds. [updateTransactionStatus] does not look at the
    current status and takes any text as the new one. For a stored
    transaction with the given id, in any status, the call is fulfilled
    with a record of that id whose status is the new status, and whose
    [completedAt] is the one passed when one is passed; after the call
    every stored transaction of that id carries the new status, and the
    transactions of other ids are kept. *)
Theorem updateTransactionStatus_any_status id status completedAt db t :
  t ∈ transactions db → Transaction.id t = id →
  ∃ t' db',
    storage.updateTransactionStatus id status completedAt db = (Fulfilled (Some t'), db') ∧
    Transaction.id t' = id ∧ Transaction.status t' = status ∧
    (∀ d, completedAt = Some d → Transaction.completedAt t' = Some d) ∧
    storage.set_status status completedAt t ∈ transactions db' ∧
    (∀ w, w ∈ transactions db' → Transaction.id w = id → Transaction.status w = status) ∧
    (∀ w, w ∈ transactions db → Transaction.id w ≠ id → w ∈ transactions db').
Proof.
  intros Ht Hid. rewrite updateTransactionStatus_unfold.
  destruct (first_returning_match (λ w, Transaction.id w = id)
              (storage.set_status status completedAt) (transactions db) t Ht Hid)
    as [t' Hfirst].
  rewrite Hfirst.
  apply first_returning_Some in Hfirst as (t0 & Ht0 & Ht0id & ->).
  eexists _, _. split; [done|]. simpl. split; [done|]. split; [done|].
  split; [by intros d ->|]. split; [|split].
  - by apply elem_of_update_where_hit.
  - intros w Hw Hwid.
    apply elem_of_update_where_inv in Hw as [(w0 & _ & _ & ->)|[_ Hmiss]]; done.
  - intros w Hw Hwid. by apply elem_of_update_where_miss.
Qed.

Lemma updateTransactionStatus_any_status_witness :
  ∃ t' db',
    storage.updateTransactionStatus "t-1" "failed" None books_db = (Fulfilled (Some t'), db') ∧
    Transaction.status t' = "failed".
Proof.
  destruct (updateTransactionStatus_any_status "t-1" "failed" None books_db settled_purchase)
    as (t' & db' & Hrun & _ & Hstatus & _).
  - apply list_elem_of_here.
  - reflexivity.
  - exists t', db'. split; [exact Hrun|exact Hstatus].
Defined.

(** C7 as stated fails on a completed purchase: the call puts it back to
    ['pending'], and would as well mark it ['failed']. *)
Lemma completed_is_reverted :
  Transaction.status settled_purchase = "completed" ∧
  storage.updateTransactionStatus "t-1" "pending" None books_db =
    (Fulfilled (Some (storage.set_status "pending" None settled_purchase)),
     mkDb [] ∅ [storage.set_status "pending" None settled_purchase] []) ∧
  Transaction.status (storage.set_status "pending" None settled_purchase) = "pending" ∧
  (∀ t db', storage.updateTransactionStatus "t-1" "failed" None books_db =
              (Fulfilled t, db') →
            Transaction.status <$> first (transactions db') = Some "failed").
Proof.
  repeat split; try done.
  intros t db' [= <- <-]. done.
Qed.

(** ** Unknown vehicles *)

Lemma no_vehicle_no_match vehicleId (t : list Vehicle.t) :
  (∀ v, v ∈ t → Vehicle.id v ≠ vehicleId) →
  Forall (λ v, ¬ Vehicle.id v = vehicleId) t.
Proof. intros Hnone. by apply Forall_forall. Qed.

Lemma serve_approve now u vehicleId db :
  User.id u ≠ EmptyString →
  serve now (approve_request u vehicleId) db =
  match storage.approveVehicle now vehicleId (User.id u) db with
  | (Fulfilled vehicle, db') => (Fulfilled (Response.mk 200 (vehicle_json <$> vehicle)), db')
  | (Rejected _, db') =>
      (Fulfilled (res_status_json 500 (error_json "Failed to approve vehicle")), db')
  | (Pending, db') => (Pending, db')
  end.
Proof.
  intros Hu. unfold serve. simpl.
  unfold routes.patch_vehicle_approve, try_catch, user_id, param. simpl.
  rewrite bool_decide_eq_false_2 by done. done.
Qed.

Lemma serve_reject now u vehicleId reason db :
  User.id u ≠ EmptyString →
  serve now (reject_request u vehicleId reason) db =
  match storage.rejectVehicle vehicleId (User.id u) reason db with
  | (Fulfilled vehicle, db') => (Fulfilled (Response.mk 200 (vehicle_json <$> vehicle)), db')
  | (Rejected _, db') =>
      (Fulfilled (res_status_json 500 (error_json "Failed to reject vehicle")), db')
  | (Pending, db') => (Pending, db')
  end.
Proof.
  intros Hu. unfold serve. simpl.
  unfold routes.patch_vehicle_reject, try_catch, user_id, param. simpl.
  rewrite bool_decide_eq_false_2 by done. done.
Qed.

(** C10. When no stored vehicle has the id, [approveVehicle] and
    [rejectVehicle] throw nothing and return [undefined], with the
    database untouched; for an authenticated caller the two [PATCH]
    routes then answer 200 with an empty body, not 404. *)
Theorem unknown_vehicle_is_not_an_error now u vehicleId reason db :
  (∀ v, v ∈ vehicles db → Vehicle.id v ≠ vehicleId) →
  User.id u ≠ EmptyString →
  storage.approveVehicle now vehicleId (User.id u) db = (Fulfilled None, db) ∧
  storage.rejectVehicle vehicleId (User.id u) reason db = (Fulfilled None, db) ∧
  serve now (approve_request u vehicleId) db = (Fulfilled (Response.mk 200 None), db) ∧
  serve now (reject_request u vehicleId reason) db = (Fulfilled (Response.mk 200 None), db).
Proof.
  intros Hnone Hu. apply no_vehicle_no_match in Hnone.
  assert (storage.approveVehicle now vehicleId (User.id u) db = (Fulfilled None, db))
    as Happrove.
  { rewrite approveVehicle_unfold.
    rewrite returning_no_match, update_where_no_match by done.
    by rewrite with_vehicles_id. }
  assert (storage.rejectVehicle vehicleId (User.id u) reason db = (Fulfilled None, db))
    as Hreject.
  { rewrite rejectVehicle_unfold.
    rewrite returning_no_match, update_where_no_match by done.
    by rewrite with_vehicles_id. }
  split; [done|]. split; [done|]. split.
  - rewrite serve_approve by done. by rewrite Happrove.
  - rewrite serve_reject by done. by rewrite Hreject.
Qed.

Lemma unknown_vehicle_is_not_an_error_witness :
  serve 40 (approve_request root "v-404") garage_db =
    (Fulfilled (Response.mk 200 None), garage_db) ∧
  serve 40 (reject_request root "v-404" "papers missing") garage_db =
    (Fulfilled (Response.mk 200 None), garage_db).
Proof.
  destruct (unknown_vehicle_is_not_an_error 40 root "v-404" "papers missing" garage_db)
    as (_ & _ & Happrove & Hreject).
  - intros v Hv. apply list_elem_of_singleton in Hv as ->. discriminate.
  - discriminate.
  - split; [exact Happrove|exact Hreject].
Defined.

(** ** Fuel balances over HTTP *)

Lemma append_nonempty_r (s1 s2 : string) : s2 ≠ EmptyString → s1 +:+ s2 ≠ EmptyString.
Proof. destruct s1; [done|]. discriminate. Qed.

Lemma show_decimal_nonempty d : show_decimal d ≠ EmptyString.
Proof.
  unfold show_decimal. apply append_nonempty_r, append_nonempty_r. discriminate.
Qed.

Lemma balance_or_default_Some row :
  balance_or_default (Some row) = show_decimal (FuelBalance.balance row).
Proof.
  unfold balance_or_default. by rewrite decide_False by apply show_decimal_nonempty.
Qed.

(** The text served for [(u, k)] once [initializeFuelBalances] has run. *)
Lemma balance_text_after_init (now : timestamp) (u k : string)
    (fb : gmap (string * string) FuelBalance.t) :
  balance_or_default
    (match fb !! (u, k) with
     | Some row => Some row
     | None => Some (FuelBalance.mk u k 0 now now)
     end) =
  show_decimal (match fb !! (u, k) with
                | Some row => FuelBalance.balance row
                | None => 0
                end).
Proof. destruct (fb !! (u, k)); by rewrite balance_or_default_Some. Qed.

(** [initializeFuelBalances] adds the rows that are missing and changes no
    balance. *)
Lemma initializeFuelBalances_spec now u db :
  ∃ db',
    storage.initializeFuelBalances now u db = (Fulfilled (), db') ∧
    (∀ k, k = "petrol" ∨ k = "diesel" →
          fuelBalances db' !! (u, k) =
          match fuelBalances db !! (u, k) with
          | Some row => Some row
          | None => Some (FuelBalance.mk u k 0 now now)
          end) ∧
    (∀ u' k', balance_of db' u' k' = balance_of db u' k') ∧
    coupons db' = coupons db ∧ vehicles db' = vehicles db ∧
    transactions db' = transactions db.
Proof.
  unfold storage.initializeFuelBalances. simpl. unfold await, storage.insert_zero_balance.
  destruct (fuelBalances db !! (u, "petrol")) as [p|] eqn:Hp; simpl.
  - destruct (fuelBalances db !! (u, "diesel")) as [d|] eqn:Hd; simpl.
    + exists db. split; [done|]. split; [|done].
      intros k [->| ->]; by rewrite ?Hp, ?Hd.
    + eexists. split; [done|]. simpl. split; [|split; [|done]].
      * intros k [->| ->].
        -- by rewrite lookup_insert_ne, Hp.
        -- by rewrite lookup_insert_eq, Hd.
      * intros u' k'. unfold balance_of. simpl.
        destruct (decide ((u, "diesel") = (u', k'))) as [<-|Hne].
        -- by rewrite lookup_insert_eq, Hd.
        -- by rewrite lookup_insert_ne.
  - rewrite lookup_insert_ne by done.
    destruct (fuelBalances db !! (u, "diesel")) as [d|] eqn:Hd; simpl.
    + eexists. split; [done|]. simpl. split; [|split; [|done]].
      * intros k [->| ->].
        -- by rewrite lookup_insert_eq, Hp.
        -- by rewrite lookup_insert_ne, Hd.
      * intros u' k'. unfold balance_of. simpl.
        destruct (decide ((u, "petrol") = (u', k'))) as [<-|Hne].
        -- by rewrite lookup_insert_eq, Hp.
        -- by rewrite lookup_insert_ne.
    + eexists. split; [done|]. simpl. split; [|split; [|done]].
      * intros k [->| ->].
        -- by rewrite lookup_insert_ne, lookup_insert_eq, Hp.
        -- by rewrite lookup_insert_eq, Hd.
      * intros u' k'. unfold balance_of. simpl.
        destruct (decide ((u, "diesel") = (u', k'))) as [<-|Hne].
        -- by rewrite lookup_insert_eq, Hd.
        -- rewrite lookup_insert_ne by done.
           destruct (decide ((u, "petrol") = (u', k'))) as [<-|Hne'].
           ++ by rewrite lookup_insert_eq, Hp.
           ++ by rewrite lookup_insert_ne.
Qed.

Lemma serve_balances now u :
  serve now (balances_request u) = routes.get_fuel_balances now (balances_request u).
Proof. reflexivity. Qed.

(** C2, as it holds. [GET /api/fuel-balances] is answered by the first
    handler registered for it. For an authenticated caller the reply is
    200 with a JSON array of two objects, [{fuelType: "petrol", balance}]
    and [{fuelType: "diesel", balance}], where each balance is the text
    of the caller's stored balance and ["0.00"] when there was no row; the
    handler creates the missing rows at 0 and changes no balance. *)
Theorem fuel_balances_reply now u db :
  User.id u ≠ EmptyString →
  ∃ db',
    serve now (balances_request u) db =
      (Fulfilled
         (res_json (JArr [
            JObj [("fuelType", JStr "petrol");
                  ("balance", JStr (show_decimal (balance_of db (User.id u) "petrol")))];
            JObj [("fuelType", JStr "diesel");
                  ("balance", JStr (show_decimal (balance_of db (User.id u) "diesel")))]])),
       db') ∧
    show_decimal 0 = "0.00" ∧
    (∀ u' k', balance_of db' u' k' = balance_of db u' k') ∧
    is_Some (fuelBalances db' !! (User.id u, "petrol")) ∧
    is_Some (fuelBalances db' !! (User.id u, "diesel")).
Proof.
  intros Hu. rewrite serve_balances.
  destruct (initializeFuelBalances_spec now (User.id u) db)
    as (db' & Hinit & Hrows & Hbal & _).
  exists db'. split; [|split; [done|split; [done|]]].
  - unfold routes.get_fuel_balances, try_catch, user_id. simpl.
    rewrite bool_decide_eq_false_2 by done.
    unfold await. rewrite Hinit. unfold storage.getFuelBalance.
    rewrite !Hrows by auto. rewrite !balance_text_after_init. done.
  - rewrite !Hrows by auto.
    split; [destruct (fuelBalances db !! (User.id u, "petrol"))
           |destruct (fuelBalances db !! (User.id u, "diesel"))]; eauto.
Qed.

Lemma fuel_balances_reply_witness :
  ∃ db',
    serve 60 (balances_request alice) empty_db =
      (Fulfilled
         (res_json (JArr [
            JObj [("fuelType", JStr "petrol"); ("balance", JStr "0.00")];
            JObj [("fuelType", JStr "diesel"); ("balance", JStr "0.00")]])),
       db').
Proof.
  destruct (fuel_balances_reply 60 alice empty_db) as (db' & Hrun & _).
  - discriminate.
  - exists db'. exact Hrun.
Defined.

(** The second handler registered for the path would answer with the
    object [{petrol, diesel}], but the router never reaches it. *)
Lemma second_registration_shape now u db :
  User.id u ≠ EmptyString →
  routes.get_fuel_balances_2 now (balances_request u) db =
    (Fulfilled
       (res_json (JObj [
          ("petrol", JStr (balance_or_default (fuelBalances db !! (User.id u, "petrol"))));
          ("diesel", JStr (balance_or_default (fuelBalances db !! (User.id u, "diesel"))))])),
     db).
Proof.
  intros Hu. unfold routes.get_fuel_balances_2, try_catch, user_id. simpl.
  by rewrite bool_decide_eq_false_2 by done.
Qed.

(** C2 as stated fails for any caller: the reply to Alice on an empty
    database is an array of [{fuelType, balance}] objects, and no choice
    of texts makes it the object [{petrol, diesel}]. *)
Lemma fuel_balances_reply_is_array :
  fst (serve 60 (balances_request alice) empty_db) =
    Fulfilled
      (res_json (JArr [
         JObj [("fuelType", JStr "petrol"); ("balance", JStr "0.00")];
         JObj [("fuelType", JStr "diesel"); ("balance", JStr "0.00")]])) ∧
  ∀ petrol diesel,
    fst (serve 60 (balances_request alice) empty_db) ≠
      Fulfilled (res_json (JObj [("petrol", JStr petrol); ("diesel", JStr diesel)])).
Proof.
  split; [reflexivity|]. intros petrol diesel. discriminate.
Qed.

(** * Further properties *)

(** ** Ordered, limited queries *)

Section order_limit.
Context {A : Type} (key : A → Z).

#[local] Instance desc_total : Total (desc key).
Proof. intros x y. unfold desc. lia. Qed.

#[local] Instance desc_transitive : Transitive (desc key).
Proof. intros x y z. unfold desc. lia. Qed.

Lemma order_by_desc_perm (t : list A) : order_by_desc key t ≡ₚ t.
Proof. apply merge_sort_Permutation. Qed.

Lemma order_by_desc_sorted (t : list A) : StronglySorted (desc key) (order_by_desc key t).
Proof. apply StronglySorted_merge_sort; apply _. Qed.

Lemma elem_of_order_by_desc (t : list A) x : x ∈ order_by_desc key t ↔ x ∈ t.
Proof. by rewrite order_by_desc_perm. Qed.

Lemma take_sorted (n : nat) (l : list A) :
  StronglySorted (desc key) l → StronglySorted (desc key) (take n l).
Proof.
  intros Hs. rewrite <- (take_drop n l) in Hs. by apply StronglySorted_app_1_l in Hs.
Qed.

(** What [take n] keeps of a list in descending order is no older than
    what it drops. *)
Lemma take_sorted_top (n : nat) (l : list A) x y :
  StronglySorted (desc key) l → x ∈ take n l → y ∈ l → y ∉ take n l →
  (key y ≤ key x)%Z.
Proof.
  intros Hs Hx Hy Hny. rewrite <- (take_drop n l) in Hs, Hy.
  apply elem_of_app in Hy as [Hy|Hy]; [done|].
  exact (StronglySorted_app_1_elem_of _ _ _ _ _ Hs Hx Hy).
Qed.

(** [select ... where P order by key desc limit n], for [n ≥ 0]. *)
Lemma limit_order_select_spec (P : A → Prop) `{∀ x, Decision (P x)} (n : Z) (t : list A) db :
  (0 ≤ n)%Z →
  ∃ rows,
    limit n (order_by_desc key (select_where P t)) db = (Fulfilled rows, db) ∧
    length rows = Nat.min (Z.to_nat n) (length (filter P t)) ∧
    (∀ x, x ∈ rows → x ∈ t ∧ P x) ∧
    StronglySorted (desc key) rows ∧
    (∀ x y, x ∈ rows → y ∈ t → P y → y ∉ rows → (key y ≤ key x)%Z).
Proof.
  intros Hn. unfold limit. rewrite decide_False by lia.
  eexists. split; [done|]. split; [|split; [|split]].
  - by rewrite length_take, order_by_desc_perm.
  - intros x Hx. apply subseteq_take in Hx.
    rewrite elem_of_order_by_desc in Hx. unfold select_where in Hx.
    by apply list_elem_of_filter in Hx as [HP Hx].
  - apply take_sorted, order_by_desc_sorted.
  - intros x y Hx Hy HP Hny.
    apply (take_sorted_top (Z.to_nat n) (order_by_desc key (select_where P t))); try done.
    + apply order_by_desc_sorted.
    + apply elem_of_order_by_desc. by apply list_elem_of_filter.
Qed.

Lemma limit_negative {B : Type} (n : Z) (rows : list B) db :
  (n < 0)%Z → limit n rows db = (Fulfilled rows, db).
Proof. intros Hn. unfold limit. by rewrite decide_True. Qed.

(** The same statement without a [limit] clause, which is what a negative
    [n] gives. *)
Lemma unlimited_order_select_spec (P : A → Prop) `{∀ x, Decision (P x)} (n : Z)
    (t : list A) db :
  (n < 0)%Z →
  ∃ rows,
    limit n (order_by_desc key (select_where P t)) db = (Fulfilled rows, db) ∧
    length rows = length (filter P t) ∧
    (∀ x, x ∈ rows ↔ x ∈ t ∧ P x) ∧
    StronglySorted (desc key) rows.
Proof.
  intros Hn. rewrite limit_negative by done.
  eexists. split; [done|]. split; [|split].
  - by rewrite order_by_desc_perm.
  - intros x. rewrite elem_of_order_by_desc. unfold select_where.
    rewrite list_elem_of_filter. tauto.
  - apply order_by_desc_sorted.
Qed.

End order_limit.

(** ** Reading transactions *)

(** X6. [getTransactionsByUser(userId, n)] changes nothing. For [n ≥ 0]
    it returns, newest first, [n] of the user's transactions, or all of
    them when there are fewer: every row returned is a stored transaction
    of that user, and no transaction of the user that was left out is
    newer than one returned. For a negative [n] nothing is refused: the
    statement carries no limit and returns every transaction of the
    user, newest first. *)
Theorem getTransactionsByUser_newest (userId : string) (n : Z) (db : Db) :
  ((n < 0)%Z →
   ∃ rows,
     DatabaseStorage.getTransactionsByUser userId n db = (Fulfilled rows, db) ∧
     length rows =
       length (filter (λ t, Transaction.userId t = userId) (transactions db)) ∧
     (∀ t, t ∈ rows ↔ t ∈ transactions db ∧ Transaction.userId t = userId) ∧
     StronglySorted (desc Transaction.createdAt) rows) ∧
  ((0 ≤ n)%Z →
   ∃ rows,
     DatabaseStorage.getTransactionsByUser userId n db = (Fulfilled rows, db) ∧
     length rows =
       Nat.min (Z.to_nat n)
         (length (filter (λ t, Transaction.userId t = userId) (transactions db))) ∧
     (∀ t, t ∈ rows → t ∈ transactions db ∧ Transaction.userId t = userId) ∧
     StronglySorted (desc Transaction.createdAt) rows ∧
     (∀ t t', t ∈ rows → t' ∈ transactions db → Transaction.userId t' = userId →
              t' ∉ rows → (Transaction.createdAt t' ≤ Transaction.createdAt t)%Z)).
Proof.
  split.
  - intros Hn. unfold DatabaseStorage.getTransactionsByUser.
    apply (unlimited_order_select_spec Transaction.createdAt
             (λ t, Transaction.userId t = userId)). done.
  - intros Hn. unfold DatabaseStorage.getTransactionsByUser.
    apply (limit_order_select_spec Transaction.createdAt
             (λ t, Transaction.userId t = userId)). done.
Qed.

Lemma getTransactionsByUser_newest_witness :
  (∃ rows,
     DatabaseStorage.getTransactionsByUser "u-alice" 1 ledger_db = (Fulfilled rows, ledger_db) ∧
     length rows = 1%nat) ∧
  (∃ rows,
     DatabaseStorage.getTransactionsByUser "u-alice" (-5) ledger_db =
       (Fulfilled rows, ledger_db) ∧
     length rows = 2%nat).
Proof.
  split.
  - destruct (proj2 (getTransactionsByUser_newest "u-alice" 1 ledger_db))
      as (rows & Hrun & Hlen & _).
    + lia.
    + exists rows. split; [exact Hrun|exact Hlen].
  - destruct (proj1 (getTransactionsByUser_newest "u-alice" (-5) ledger_db))
      as (rows & Hrun & Hlen & _).
    + lia.
    + exists rows. split; [exact Hrun|exact Hlen].
Defined.

(** ** Routing *)

(** Express runs the first registration that matches: the ones before it
    do not match, and whatever is registered after it is never run. *)
Theorem dispatch_first_match (pre post : list Route) (r : Route) now req ps :
  Forall (λ r0, ¬ route_matches r0 req) pre →
  route_method r = Request.method req →
  match_path (route_path r) (Request.path req) = Some ps →
  dispatch (pre ++ r :: post) now req = route_handler r now (with_params ps req).
Proof.
  intros Hpre Hmethod Hpath. induction Hpre as [|r0 pre Hr0 _ IH]; simpl.
  - rewrite decide_True by done. by rewrite Hpath.
  - destruct (decide (route_method r0 = Request.method req)) as [Hm|Hm]; [|done].
    destruct (match_path (route_path r0) (Request.path req)) as [ps0|] eqn:Hp0; [|done].
    exfalso. apply Hr0. split; [done|]. rewrite Hp0. eauto.
Qed.

Lemma dispatch_first_match_witness :
  dispatch registerRoutes 40 (approve_request root "v-1") =
  routes.patch_vehicle_approve 40 (with_params [("id", "v-1")] (approve_request root "v-1")).
Proof.
  apply (dispatch_first_match
           [mkRoute GET [Lit "api"; Lit "fuel-balances"] routes.get_fuel_balances]
           _ (mkRoute PATCH [Lit "api"; Lit "vehicles"; Par "id"; Lit "approve"]
                routes.patch_vehicle_approve)).
  - apply Forall_cons. split; [|apply Forall_nil; exact I].
    intros [Hm _]. discriminate.
  - reflexivity.
  - reflexivity.
Defined.

(** X1. In the full table of [registerRoutes], whatever the handlers not
    represented here do, the requests for the fuel balances, for a coupon
    redemption and for a vehicle approval or rejection reach the handlers
    that [serve] runs: no registration before them takes these requests. *)
Theorem all_routes_agree other now u code vehicleId reason :
  dispatch (all_routes other) now (balances_request u) = serve now (balances_request u) ∧
  dispatch (all_routes other) now (redeem_request u code) = serve now (redeem_request u code) ∧
  dispatch (all_routes other) now (approve_request u vehicleId) =
    serve now (approve_request u vehicleId) ∧
  dispatch (all_routes other) now (reject_request u vehicleId reason) =
    serve now (reject_request u vehicleId reason).
Proof. repeat split. Qed.

(** X3. Every handler that answers for the signed-in user refuses a request
    without a user id, or with an empty one, with 401 'Not authenticated',
    and does not touch the database. *)
Theorem unauthenticated_401 (h : Handler) now req db :
  h ∈ user_scoped →
  falsy (user_id req) = true →
  h now req db = (Fulfilled (res_status_json 401 (error_json "Not authenticated")), db).
Proof.
  intros Hh Hfalsy. unfold user_scoped in Hh.
  repeat (apply elem_of_cons in Hh as [->|Hh]);
    [..|by apply not_elem_of_nil in Hh];
    unfold routes.get_fuel_balances, handlers.get_transactions_my, handlers.get_vehicles_my,
      routes.patch_vehicle_approve, routes.patch_vehicle_reject, routes.get_fuel_balances_2,
      routes.post_coupons_redeem, handlers.get_transactions_recent,
      handlers.get_vehicles_user, try_catch;
    destruct (user_id req) as [uid|]; try done; by rewrite Hfalsy.
Qed.

Lemma unauthenticated_401_witness :
  routes.post_coupons_redeem 60 (redeem_request (User.mk EmptyString None) "FUEL-PET-10L-ABCD12")
    stale_db =
  (Fulfilled (res_status_json 401 (error_json "Not authenticated")), stale_db).
Proof.
  apply unauthenticated_401.
  - unfold user_scoped. do 6 apply list_elem_of_further. apply list_elem_of_here.
  - reflexivity.
Defined.

(** X2. [GET /api/transactions/my] is answered by the first handler registered
    for it, whatever the later registration would do: for a signed-in
    user the reply is 200 with at most 20 transactions, all of them the
    user's own, newest first, none of those left out being newer than one
    listed; the database is not changed. *)
Theorem transactions_my_reply other now u db :
  User.id u ≠ EmptyString →
  ∃ rows,
    dispatch (all_routes other) now (get_request (Some u) ["api"; "transactions"; "my"]) db =
      (Fulfilled (res_json (JArr (transaction_json <$> rows))), db) ∧
    (length rows ≤ 20)%nat ∧
    (∀ t, t ∈ rows → t ∈ transactions db ∧ Transaction.userId t = User.id u) ∧
    StronglySorted (desc Transaction.createdAt) rows ∧
    (∀ t t', t ∈ rows → t' ∈ transactions db → Transaction.userId t' = User.id u →
             t' ∉ rows → (Transaction.createdAt t' ≤ Transaction.createdAt t)%Z).
Proof.
  intros Hu.
  destruct (limit_order_select_spec Transaction.createdAt
              (λ t, Transaction.userId t = User.id u) 20 (transactions db) db)
    as (rows & Hrun & Hlen & Hown & Hsorted & Htop); [lia|].
  fold (DatabaseStorage.getTransactionsByUser (User.id u) 20 db) in Hrun.
  exists rows. split; [|split; [lia|done]].
  change (dispatch (all_routes other) now
            (get_request (Some u) ["api"; "transactions"; "my"]) db)
    with (handlers.get_transactions_my now
            (get_request (Some u) ["api"; "transactions"; "my"]) db).
  unfold handlers.get_transactions_my, try_catch, user_id. simpl.
  rewrite bool_decide_eq_false_2 by done. unfold await. by rewrite Hrun.
Qed.

Lemma transactions_my_reply_witness :
  ∃ rows,
    dispatch (all_routes (λ _, routes.get_fuel_balances)) 60
      (get_request (Some alice) ["api"; "transactions"; "my"]) books_db =
      (Fulfilled (res_json (JArr (transaction_json <$> rows))), books_db) ∧
    (length rows ≤ 20)%nat.
Proof.
  destruct (transactions_my_reply (λ _, routes.get_fuel_balances) 60 alice books_db)
    as (rows & Hrun & Hlen & _).
  - discriminate.
  - exists rows. split; [exact Hrun|exact Hlen].
Defined.

(** X4. [GET /api/vehicles/pending] asks for no authentication: any request,
    signed in or not, is answered 200 with exactly the stored vehicles
    whose status is ['pending'], newest first, and changes nothing. *)
Theorem vehicles_pending_reply other now (u : option User.t) db :
  ∃ rows,
    dispatch (all_routes other) now (get_request u ["api"; "vehicles"; "pending"]) db =
      (Fulfilled (res_json (JArr (vehicle_json <$> rows))), db) ∧
    (∀ v, v ∈ rows ↔ v ∈ vehicles db ∧ Vehicle.status v = pending) ∧
    StronglySorted (desc Vehicle.createdAt) rows.
Proof.
  eexists. split; [reflexivity|]. split.
  - intros v. rewrite elem_of_order_by_desc. unfold select_where.
    rewrite list_elem_of_filter. tauto.
  - apply order_by_desc_sorted.
Qed.

(** ** Registering vehicles *)

Lemma createVehicle_fulfilled_inv now newId data db v db' :
  DatabaseStorage.createVehicle now newId data db = (Fulfilled v, db') →
  vehicles db' = (vehicles db ++ [v])%list ∧
  coupons db' = coupons db ∧ transactions db' = transactions db ∧
  fuelBalances db' = fuelBalances db ∧
  Vehicle.id v = newId ∧
  Vehicle.registrationNumber v = InsertVehicle.registrationNumber data ∧
  Vehicle.status v = default pending (InsertVehicle.status data) ∧
  Vehicle.approvedAt v = None ∧ Vehicle.approvedBy v = None ∧
  (∀ w, w ∈ vehicles db →
        Vehicle.id w ≠ newId ∧
        Vehicle.registrationNumber w ≠ InsertVehicle.registrationNumber data).
Proof.
  unfold DatabaseStorage.createVehicle.
  destruct (decide (Exists _ _)) as [|Hfree]; [done|].
  intros [= <- <-]. simpl. repeat split; try done.
  - intros Hid. apply Hfree, Exists_exists. exists w. auto.
  - intros Hreg. apply Hfree, Exists_exists. exists w. auto.
Qed.

(** X9. A registration number can be registered once: after [createVehicle]
    has stored a vehicle, a second [createVehicle] with the same
    registration number, whatever else it says, is refused by the unique
    constraint and stores nothing. *)
Theorem createVehicle_twice now now' newId newId' data data' db v db' :
  DatabaseStorage.createVehicle now newId data db = (Fulfilled v, db') →
  InsertVehicle.registrationNumber data' = InsertVehicle.registrationNumber data →
  DatabaseStorage.createVehicle now' newId' data' db' = (Rejected storage.duplicate_key, db').
Proof.
  intros Hrun Hsame.
  apply createVehicle_fulfilled_inv in Hrun as (Hvs & _ & _ & _ & _ & Hreg & _).
  unfold DatabaseStorage.createVehicle. rewrite decide_True; [done|].
  apply Exists_exists. exists v. split.
  - rewrite Hvs. apply elem_of_app. right. apply list_elem_of_here.
  - right. congruence.
Qed.

Lemma createVehicle_twice_witness :
  let db' := snd (DatabaseStorage.createVehicle 70 "v-2" new_car garage_db) in
  DatabaseStorage.createVehicle 80 "v-3" new_car db' = (Rejected storage.duplicate_key, db').
Proof.
  intros db'.
  apply (createVehicle_twice 70 80 "v-2" "v-3" new_car new_car garage_db
           (Vehicle.mk "v-2" "XYZ-9876" "u-alice" None "suv" "diesel" pending
              None None None 70)).
  - reflexivity.
  - reflexivity.
Defined.

Lemma first_select_app_fresh {A} (P : A → Prop) `{∀ x, Decision (P x)} (t : list A) x :
  (∀ r, r ∈ t → ¬ P r) → P x → first (select_where P (t ++ [x])) = Some x.
Proof.
  intros Hnone HP. unfold first, select_where. rewrite filter_app.
  replace (filter P t) with (@nil A).
  - simpl. by rewrite filter_cons_True.
  - symmetry. apply head_None. by apply (first_select_None P t).
Qed.

(** X10. A vehicle that [createVehicle] has stored is the one [getVehicleById]
    finds under its id, it carries no approval, and, when the request
    named no status, it is ['pending'] and listed by
    [getPendingVehicles]. *)
Theorem createVehicle_round_trip now newId data db v db' :
  DatabaseStorage.createVehicle now newId data db = (Fulfilled v, db') →
  storage.getVehicleById (Vehicle.id v) db' = (Fulfilled (Some v), db') ∧
  Vehicle.approvedAt v = None ∧ Vehicle.approvedBy v = None ∧
  (InsertVehicle.status data = None →
   Vehicle.status v = pending ∧
   ∃ rows, storage.getPendingVehicles db' = (Fulfilled rows, db') ∧ v ∈ rows).
Proof.
  intros Hrun.
  apply createVehicle_fulfilled_inv in Hrun
    as (Hvs & _ & _ & _ & Hid & _ & Hstatus & Hat & Hby & Hfresh).
  split; [|split; [done|split; [done|]]].
  - unfold storage.getVehicleById. rewrite Hvs.
    rewrite (first_select_app_fresh (λ w, Vehicle.id w = Vehicle.id v)); [done| |done].
    intros w Hw. rewrite Hid. by apply Hfresh.
  - intros Hnone. rewrite Hnone in Hstatus. split; [done|].
    eexists. split; [reflexivity|].
    rewrite elem_of_order_by_desc. unfold select_where.
    apply list_elem_of_filter. split; [done|].
    rewrite Hvs. apply elem_of_app. right. apply list_elem_of_here.
Qed.

Lemma createVehicle_round_trip_witness :
  let db' := snd (DatabaseStorage.createVehicle 70 "v-2" new_car garage_db) in
  ∃ v, storage.getVehicleById "v-2" db' = (Fulfilled (Some v), db') ∧
       Vehicle.status v = pending.
Proof.
  intros db'.
  destruct (createVehicle_round_trip 70 "v-2" new_car garage_db
              (Vehicle.mk "v-2" "XYZ-9876" "u-alice" None "suv" "diesel" pending
                 None None None 70) db') as (Hget & _ & _ & Hpending).
  - reflexivity.
  - eexists. split; [exact Hget|]. apply Hpending. reflexivity.
Defined.

(** ** The pending list *)

(** X11. After [approveVehicle] or [rejectVehicle] for an id, the list of
    [getPendingVehicles] holds exactly the vehicles that were pending
    before and have another id. *)
Theorem decided_vehicle_leaves_pending_list now vehicleId adminId reason db :
  let approved_db := after (storage.approveVehicle now vehicleId adminId) db in
  let rejected_db := after (storage.rejectVehicle vehicleId adminId reason) db in
  (∃ rows,
     storage.getPendingVehicles approved_db = (Fulfilled rows, approved_db) ∧
     ∀ v, v ∈ rows ↔
          v ∈ vehicles db ∧ Vehicle.status v = pending ∧ Vehicle.id v ≠ vehicleId) ∧
  (∃ rows,
     storage.getPendingVehicles rejected_db = (Fulfilled rows, rejected_db) ∧
     ∀ v, v ∈ rows ↔
          v ∈ vehicles db ∧ Vehicle.status v = pending ∧ Vehicle.id v ≠ vehicleId).
Proof.
  split; (eexists; split; [reflexivity|]); intros v;
    rewrite elem_of_order_by_desc; unfold select_where;
    rewrite list_elem_of_filter; simpl; split.
  - intros [Hst Hin].
    apply elem_of_update_where_inv in Hin as [(v0 & _ & _ & ->)|[Hin Hmiss]]; done.
  - intros (Hin & Hst & Hid). split; [done|]. by apply elem_of_update_where_miss.
  - intros [Hst Hin].
    apply elem_of_update_where_inv in Hin as [(v0 & _ & _ & ->)|[Hin Hmiss]]; done.
  - intros (Hin & Hst & Hid). split; [done|]. by apply elem_of_update_where_miss.
Qed.

(** ** Deciding twice *)

Lemma vehicles_after_approve now vehicleId adminId db :
  vehicles (after (storage.approveVehicle now vehicleId adminId) db) =
  update_where (λ v, Vehicle.id v = vehicleId) (storage.set_approved now adminId) (vehicles db).
Proof. reflexivity. Qed.

Lemma vehicles_after_reject vehicleId adminId reason db :
  vehicles (after (storage.rejectVehicle vehicleId adminId reason) db) =
  update_where (λ v, Vehicle.id v = vehicleId) (storage.set_rejected adminId reason) (vehicles db).
Proof. reflexivity. Qed.

(** X12. The two decisions overwrite each other but do not clean up. A vehicle
    approved and then rejected ends ['rejected'] by the second
    administrator, and still carries the [approvedAt] of the approval; a
    vehicle rejected and then approved ends ['approved'], and still
    carries the [rejectionReason]. *)
Theorem decision_leaves_residue now vehicleId admin1 admin2 reason db v :
  v ∈ vehicles db → Vehicle.id v = vehicleId →
  let approved_first :=
    after (storage.rejectVehicle vehicleId admin2 reason)
      (after (storage.approveVehicle now vehicleId admin1) db) in
  let rejected_first :=
    after (storage.approveVehicle now vehicleId admin2)
      (after (storage.rejectVehicle vehicleId admin1 reason) db) in
  (∃ w, w ∈ vehicles approved_first ∧ Vehicle.id w = vehicleId) ∧
  (∀ w, w ∈ vehicles approved_first → Vehicle.id w = vehicleId →
        Vehicle.status w = rejected ∧ Vehicle.approvedAt w = Some now ∧
        Vehicle.approvedBy w = Some admin2 ∧ Vehicle.rejectionReason w = Some reason) ∧
  (∃ w, w ∈ vehicles rejected_first ∧ Vehicle.id w = vehicleId) ∧
  (∀ w, w ∈ vehicles rejected_first → Vehicle.id w = vehicleId →
        Vehicle.status w = approved ∧ Vehicle.approvedAt w = Some now ∧
        Vehicle.approvedBy w = Some admin2 ∧ Vehicle.rejectionReason w = Some reason).
Proof.
  intros Hv Hid approved_first rejected_first. subst approved_first rejected_first.
  rewrite vehicles_after_reject, !vehicles_after_approve, vehicles_after_reject.
  split; [|split; [|split]].
  - exists (storage.set_rejected admin2 reason (storage.set_approved now admin1 v)).
    split; [|done].
    apply elem_of_update_where_hit; [|done]. by apply elem_of_update_where_hit.
  - intros w Hw Hwid.
    apply elem_of_update_where_inv in Hw as [(w1 & Hw1 & _ & ->)|[_ Hmiss]]; [|done].
    apply elem_of_update_where_inv in Hw1 as [(w0 & _ & _ & ->)|[_ Hmiss]]; done.
  - exists (storage.set_approved now admin2 (storage.set_rejected admin1 reason v)).
    split; [|done].
    apply elem_of_update_where_hit; [|done]. by apply elem_of_update_where_hit.
  - intros w Hw Hwid.
    apply elem_of_update_where_inv in Hw as [(w1 & Hw1 & _ & ->)|[_ Hmiss]]; [|done].
    apply elem_of_update_where_inv in Hw1 as [(w0 & _ & _ & ->)|[_ Hmiss]]; done.
Qed.

Lemma decision_leaves_residue_witness :
  ∃ w, w ∈ vehicles (after (storage.rejectVehicle "v-1" "u-root" "papers missing")
                       (after (storage.approveVehicle 40 "v-1" "u-alice") garage_db)) ∧
       Vehicle.id w = "v-1".
Proof.
  apply (decision_leaves_residue 40 "v-1" "u-alice" "u-root" "papers missing" garage_db
           approved_car).
  - apply list_elem_of_here.
  - reflexivity.
Defined.

(** ** The life of a coupon *)

Lemma createCoupon_row_inv now newId draws data db c db' :
  storage.createCoupon now newId draws data db = (Fulfilled c, db') →
  Coupon.id c = newId ∧ Coupon.fuelType c = InsertCoupon.fuelType data ∧
  Coupon.amount c = InsertCoupon.amount data ∧
  Coupon.status c = default "active" (InsertCoupon.status data) ∧
  Coupon.usedBy c = None ∧ Coupon.usedAt c = None ∧
  fuelBalances db' = fuelBalances db ∧ vehicles db' = vehicles db ∧
  transactions db' = transactions db.
Proof.
  unfold storage.createCoupon, await.
  destruct (storage.generateUniqueCouponCode _ _ _ _) as [[code|e|] db1] eqn:Hgen; [|done..].
  apply generate_fulfilled_inv in Hgen as (-> & _).
  unfold storage.insert_coupon.
  destruct (decide (decimal_fits _)); [|done].
  destruct (decide (Exists _ _)); [done|].
  by intros [= <- <-].
Qed.




Lemma deactivateCoupon_unfold id db :
  storage.deactivateCoupon id db =
  (Fulfilled (first (returning (λ c, Coupon.id c = id) storage.set_deactivated (coupons db))),
   with_coupons (update_where (λ c, Coupon.id c = id) storage.set_deactivated (coupons db)) db).
Proof. reflexivity. Qed.

(** X14. [deactivateCoupon] does not look at the status: the coupon with the
    id, active or already used, comes back ['deactivated'] with its
    redeemer and code kept. When no other coupon carries its code, the
    code cannot be redeemed afterwards. *)
Theorem deactivateCoupon_blocks_redeem id db c :
  c ∈ coupons db → Coupon.id c = id →
  (∀ c', c' ∈ coupons db → Coupon.code c' = Coupon.code c → Coupon.id c' = id) →
  ∃ c' db',
    storage.deactivateCoupon id db = (Fulfilled (Some c'), db') ∧
    Coupon.id c' = id ∧ Coupon.status c' = "deactivated" ∧
    storage.set_deactivated c ∈ coupons db' ∧
    Coupon.usedBy (storage.set_deactivated c) = Coupon.usedBy c ∧
    ∀ now userId,
      storage.redeemCoupon now (Coupon.code c) userId db' = (Rejected not_redeemable, db').
Proof.
  intros Hc Hid Honly. rewrite deactivateCoupon_unfold.
  destruct (first_returning_match (λ c0, Coupon.id c0 = id) storage.set_deactivated
              (coupons db) c Hc Hid) as [c' Hfirst].
  rewrite Hfirst.
  apply first_returning_Some in Hfirst as (c0 & _ & Hc0id & ->).
  eexists _, _. split; [done|]. simpl. split; [done|]. split; [done|]. split.
  { by apply elem_of_update_where_hit. }
  split; [done|].
  intros now userId. apply redeemCoupon_rejected. simpl.
  intros c1 Hc1 Hcode.
  apply elem_of_update_where_inv in Hc1 as [(c2 & _ & _ & ->)|[Hc1 Hmiss]]; [done|].
  exfalso. apply Hmiss. by apply Honly.
Qed.

Lemma deactivateCoupon_blocks_redeem_witness :
  ∃ c' db',
    storage.deactivateCoupon "c-1" stale_db = (Fulfilled (Some c'), db') ∧
    storage.redeemCoupon 200 "FUEL-PET-10L-ABCD12" "u-alice" db' =
      (Rejected not_redeemable, db').
Proof.
  destruct (deactivateCoupon_blocks_redeem "c-1" stale_db stale_coupon)
    as (c' & db' & Hrun & _ & _ & _ & _ & Hredeem).
  - apply list_elem_of_here.
  - reflexivity.
  - intros c0 Hc0 _. apply list_elem_of_singleton in Hc0 as ->. reflexivity.
  - exists c', db'. split; [exact Hrun|]. exact (Hredeem 200 "u-alice").
Defined.

(** X15. [getActiveCoupons(n)] changes nothing. For [n ≥ 0] it returns,
    newest first, [n] of the active coupons, or all of them when there are
    fewer, and nothing else; for a negative [n] nothing is refused and
    every active coupon is returned. Either way a code that [redeemCoupon]
    has accepted is no longer on the list. *)
Theorem getActiveCoupons_lists_active (n : Z) (db : Db) :
  ((n < 0)%Z →
   ∃ rows,
     DatabaseStorage.getActiveCoupons n db = (Fulfilled rows, db) ∧
     length rows = length (filter (λ c, Coupon.status c = "active") (coupons db)) ∧
     (∀ c, c ∈ rows ↔ c ∈ coupons db ∧ Coupon.status c = "active") ∧
     StronglySorted (desc Coupon.createdAt) rows) ∧
  ((0 ≤ n)%Z →
   ∃ rows,
     DatabaseStorage.getActiveCoupons n db = (Fulfilled rows, db) ∧
     length rows =
       Nat.min (Z.to_nat n) (length (filter (λ c, Coupon.status c = "active") (coupons db))) ∧
     (∀ c, c ∈ rows → c ∈ coupons db ∧ Coupon.status c = "active") ∧
     StronglySorted (desc Coupon.createdAt) rows ∧
     (∀ c c', c ∈ rows → c' ∈ coupons db → Coupon.status c' = "active" →
              c' ∉ rows → (Coupon.createdAt c' ≤ Coupon.createdAt c)%Z)) ∧
  (∀ now code userId c db' rows,
     storage.redeemCoupon now code userId db = (Fulfilled c, db') →
     DatabaseStorage.getActiveCoupons n db' = (Fulfilled rows, db') →
     ∀ c', c' ∈ rows → Coupon.code c' ≠ code).
Proof.
  split; [|split].
  - intros Hn. unfold DatabaseStorage.getActiveCoupons.
    apply (unlimited_order_select_spec Coupon.createdAt (λ c, Coupon.status c = "active")).
    done.
  - intros Hn. unfold DatabaseStorage.getActiveCoupons.
    apply (limit_order_select_spec Coupon.createdAt (λ c, Coupon.status c = "active")).
    done.
  - intros now code userId c db' rows Hredeem Hlist c' Hc' Hcode.
    apply redeemCoupon_inv in Hredeem as (c0 & _ & _ & _ & ->).
    assert (c' ∈ order_by_desc Coupon.createdAt
                   (select_where (λ c, Coupon.status c = "active")
                      (update_where (redeemable code) (storage.set_used now userId)
                         (coupons db)))) as Hin.
    { unfold DatabaseStorage.getActiveCoupons, limit in Hlist. simpl in Hlist.
      destruct (decide (n < 0)%Z); injection Hlist as <-; [done|].
      by apply subseteq_take in Hc'. }
    rewrite elem_of_order_by_desc in Hin.
    unfold select_where in Hin. apply list_elem_of_filter in Hin as [Hactive Hin].
    by apply none_active_after_redeem in Hin.
Qed.

Lemma getActiveCoupons_lists_active_witness :
  (∃ rows,
     DatabaseStorage.getActiveCoupons 1 two_coupons_db = (Fulfilled rows, two_coupons_db) ∧
     length rows = 1%nat) ∧
  (∃ rows,
     DatabaseStorage.getActiveCoupons (-5) two_coupons_db = (Fulfilled rows, two_coupons_db) ∧
     length rows = 2%nat).
Proof.
  split.
  - destruct (proj1 (proj2 (getActiveCoupons_lists_active 1 two_coupons_db)))
      as (rows & Hrun & Hlen & _).
    + lia.
    + exists rows. split; [exact Hrun|exact Hlen].
  - destruct (proj1 (getActiveCoupons_lists_active (-5) two_coupons_db))
      as (rows & Hrun & Hlen & _).
    + lia.
    + exists rows. split; [exact Hrun|exact Hlen].
Defined.

(** ** Fuel balances *)

(** X17. [updateFuelBalance] succeeds exactly when the delta and the resulting
    balance fit the [decimal(10,2)] column, a missing row counting as 0;
    there is no floor at zero, so a debit larger than the balance is
    applied and leaves a negative balance. Otherwise it throws 'numeric
    field overflow' and changes nothing. Either way no other user's
    balance and no other fuel kind is touched. *)
Theorem updateFuelBalance_outcome now (u k : string) (a : number) db :
  (decimal_fits a ∧ decimal_fits (balance_of db u k + a) →
   ∃ row db',
     storage.updateFuelBalance now u k a db = (Fulfilled row, db') ∧
     FuelBalance.balance row = balance_of db u k + a ∧
     balance_of db' u k = balance_of db u k + a ∧
     ∀ u' k', (u', k') ≠ (u, k) → fuelBalances db' !! (u', k') = fuelBalances db !! (u', k')) ∧
  (¬ (decimal_fits a ∧ decimal_fits (balance_of db u k + a)) →
   storage.updateFuelBalance now u k a db = (Rejected storage.numeric_field_overflow, db)).
Proof.
  split.
  - intros [Ha Hsum].
    destruct (updateFuelBalance_fulfilled now u k a db Ha Hsum) as (row & db' & Hrun).
    exists row, db'. split; [done|].
    apply updateFuelBalance_fulfilled_inv in Hrun as (Hbal & Hrow & Hfb & _).
    split; [lia|]. split; [done|].
    intros u' k' Hne. rewrite Hfb. by rewrite lookup_insert_ne.
  - intros Hno. unfold storage.updateFuelBalance, balance_of in *.
    destruct (decide (decimal_fits a)) as [Ha|Ha]; [|done].
    destruct (fuelBalances db !! (u, k)) as [old|].
    + rewrite decide_False; [done|]. intros Hsum. by apply Hno.
    + exfalso. apply Hno. split; [done|]. by rewrite Z.add_0_l.
Qed.

Lemma updateFuelBalance_outcome_witness :
  ∃ row db',
    storage.updateFuelBalance 90 "u-alice" "diesel" (-2500) empty_db = (Fulfilled row, db') ∧
    FuelBalance.balance row = -2500.
Proof.
  destruct (proj1 (updateFuelBalance_outcome 90 "u-alice" "diesel" (-2500) empty_db))
    as (row & db' & Hrun & Hrow & _).
  - vm_compute. intuition discriminate.
  - exists row, db'. split; [exact Hrun|exact Hrow].
Defined.

(** X18. [initializeFuelBalances] is idempotent: once it has run for a user,
    running it again, at any later time, changes nothing. *)
Theorem initializeFuelBalances_idempotent now now' u db :
  let db1 := after (storage.initializeFuelBalances now u) db in
  storage.initializeFuelBalances now' u db1 = (Fulfilled (), db1).
Proof.
  intros db1. subst db1. unfold after.
  destruct (initializeFuelBalances_spec now u db) as (db1 & Hrun & Hrows & _).
  rewrite Hrun. simpl.
  assert (is_Some (fuelBalances db1 !! (u, "petrol"))) as [p Hp].
  { rewrite Hrows by auto. destruct (fuelBalances db !! (u, "petrol")); eauto. }
  assert (is_Some (fuelBalances db1 !! (u, "diesel"))) as [d Hd].
  { rewrite Hrows by auto. destruct (fuelBalances db !! (u, "diesel")); eauto. }
  unfold storage.initializeFuelBalances. simpl.
  unfold await, storage.insert_zero_balance. rewrite Hp. simpl. by rewrite Hd.
Qed.

(** ** What a redemption request leaves alone *)

Lemma after_redeem_request now u code db :
  let db' := after (serve now (redeem_request u code)) db in
  db' = db ∨
  ∃ db1,
    coupons db1 =
      update_where (redeemable code) (storage.set_used now (User.id u)) (coupons db) ∧
    vehicles db1 = vehicles db ∧ transactions db1 = transactions db ∧
    fuelBalances db1 = fuelBalances db ∧
    (db' = db1 ∨
     ∃ row k, db' = with_fuelBalances (<[(User.id u, k) := row]> (fuelBalances db1)) db1).
Proof.
  intros db'. subst db'. unfold after. rewrite serve_redeem.
  destruct (decide (User.id u = EmptyString)) as [Hu|Hu].
  { left. by rewrite post_coupons_redeem_unauthenticated. }
  rewrite post_coupons_redeem_unfold by done. rewrite redeemCoupon_unfold. cbn zeta.
  right.
  exists (with_coupons
            (update_where (redeemable code) (storage.set_used now (User.id u)) (coupons db)) db).
  split; [reflexivity|]. split; [reflexivity|].
  split; [reflexivity|]. split; [reflexivity|].
  destruct (first _) as [c|]; [|by left].
  unfold storage.updateFuelBalance.
  destruct (decide (decimal_fits _)); [|by left].
  destruct (_ !! _) as [old|]; [|right; eauto].
  destruct (decide (decimal_fits _)); [right; eauto|by left].
Qed.

(** X19. A request to [POST /api/coupons/redeem] never writes a transaction
    record and never touches a vehicle; it leaves every balance of every
    other user as it was; and it neither adds nor removes a coupon nor
    changes a coupon that carries another code. *)
Theorem redeem_request_footprint now u code db :
  let db' := after (serve now (redeem_request u code)) db in
  transactions db' = transactions db ∧
  vehicles db' = vehicles db ∧
  (∀ u' k', u' ≠ User.id u → fuelBalances db' !! (u', k') = fuelBalances db !! (u', k')) ∧
  Coupon.code <$> coupons db' = Coupon.code <$> coupons db ∧
  (∀ c, c ∈ coupons db → Coupon.code c ≠ code → c ∈ coupons db').
Proof.
  intros db'.
  destruct (after_redeem_request now u code db)
    as [Hsame|(db1 & Hcs & Hvs & Hts & Hfb & Hend)]; fold db' in Hsame || fold db' in Hend.
  { rewrite Hsame. done. }
  assert (Coupon.code <$> coupons db1 = Coupon.code <$> coupons db) as Hcodes.
  { rewrite Hcs. unfold update_where. rewrite <- list_fmap_compose.
    apply list_fmap_ext. intros i c _. simpl. by destruct (decide _). }
  assert (∀ c, c ∈ coupons db → Coupon.code c ≠ code → c ∈ coupons db1) as Hkeep.
  { intros c Hc Hcode. rewrite Hcs. apply elem_of_update_where_miss; [done|].
    by intros [? _]. }
  destruct Hend as [->|(row & k & ->)]; simpl.
  - rewrite Hts, Hvs, Hfb. done.
  - rewrite Hts, Hvs, Hfb. repeat split; try done.
    intros u' k' Hne. rewrite lookup_insert_ne; [done|]. congruence.
Qed.

(** ** Unknown ids *)

(** X20. For an id that no stored row carries, [updateTransactionStatus] and
    [deactivateCoupon] throw nothing, return [undefined] and leave the
    database as it was; [getVehicleById] and [getTransactionById] return
    [undefined]. *)
Theorem unknown_id_is_not_an_error id status completedAt db :
  ((∀ t, t ∈ transactions db → Transaction.id t ≠ id) →
   storage.updateTransactionStatus id status completedAt db = (Fulfilled None, db) ∧
   storage.getTransactionById id db = (Fulfilled None, db)) ∧
  ((∀ c, c ∈ coupons db → Coupon.id c ≠ id) →
   storage.deactivateCoupon id db = (Fulfilled None, db)) ∧
  ((∀ v, v ∈ vehicles db → Vehicle.id v ≠ id) →
   storage.getVehicleById id db = (Fulfilled None, db)).
Proof.
  split; [|split].
  - intros Hnone. split.
    + rewrite updateTransactionStatus_unfold.
      rewrite returning_no_match, update_where_no_match by (by apply Forall_forall).
      by rewrite with_transactions_id.
    + unfold storage.getTransactionById.
      by rewrite (proj2 (first_select_None (λ t, Transaction.id t = id) _)).
  - intros Hnone. rewrite deactivateCoupon_unfold.
    rewrite returning_no_match, update_where_no_match by (by apply Forall_forall).
    by rewrite with_coupons_id.
  - intros Hnone. unfold storage.getVehicleById.
    by rewrite (proj2 (first_select_None (λ v, Vehicle.id v = id) _)).
Qed.

Lemma unknown_id_is_not_an_error_witness :
  storage.deactivateCoupon "c-404" stale_db = (Fulfilled None, stale_db).
Proof.
  apply (proj1 (proj2 (unknown_id_is_not_an_error "c-404" "failed" None stale_db))).
  intros c Hc. apply list_elem_of_singleton in Hc as ->. discriminate.
Defined.

(** ** Histories *)

Lemma moved_refl db : moved db db.
Proof. split; [by left|]. split; [by left|]. split; [by left|]. by intros key. Qed.

Lemma moved_coupons db t' :
  coupons_moved (coupons db) t' → moved db (with_coupons t' db).
Proof.
  intros Hc. split; [exact Hc|]. split; [by left|]. split; [by left|]. by intros key.
Qed.

Lemma moved_vehicles db t' :
  vehicles_moved (vehicles db) t' → moved db (with_vehicles t' db).
Proof.
  intros Hv. split; [by left|]. split; [exact Hv|]. split; [by left|]. by intros key.
Qed.

Lemma moved_transactions db t' :
  transactions_moved (transactions db) t' → moved db (with_transactions t' db).
Proof.
  intros Ht. split; [by left|]. split; [by left|]. split; [exact Ht|]. by intros key.
Qed.

Lemma moved_balance_insert db db1 key row :
  moved db db1 → moved db (with_fuelBalances (<[key := row]> (fuelBalances db1)) db1).
Proof.
  intros (Hc & Hv & Ht & Hb). split; [done|]. split; [done|]. split; [done|].
  intros key' Hsome. simpl. destruct (decide (key = key')) as [->|Hne].
  - rewrite lookup_insert_eq. eauto.
  - rewrite lookup_insert_ne by done. by apply Hb.
Qed.

Lemma updateFuelBalance_moved now u k a db db1 :
  moved db db1 → moved db (after (storage.updateFuelBalance now u k a) db1).
Proof.
  intros Hm. unfold after, storage.updateFuelBalance.
  destruct (decide (decimal_fits a)); [|done].
  destruct (fuelBalances db1 !! (u, k)) as [old|]; simpl.
  - destruct (decide (decimal_fits _)); [|done]. by apply moved_balance_insert.
  - by apply moved_balance_insert.
Qed.

Lemma insert_zero_balance_moved now u k db db1 :
  moved db db1 → moved db (after (storage.insert_zero_balance now u k) db1).
Proof.
  intros Hm. unfold after, storage.insert_zero_balance.
  destruct (fuelBalances db1 !! (u, k)); simpl; [done|]. by apply moved_balance_insert.
Qed.

Lemma initializeFuelBalances_after now u db :
  after (storage.initializeFuelBalances now u) db =
  after (storage.insert_zero_balance now u "diesel")
    (after (storage.insert_zero_balance now u "petrol") db).
Proof.
  unfold after, storage.initializeFuelBalances. simpl. unfold await.
  unfold storage.insert_zero_balance.
  destruct (fuelBalances db !! (u, "petrol")); simpl;
    by destruct (_ !! (u, "diesel")).
Qed.

Lemma initializeFuelBalances_moved now u db :
  moved db (after (storage.initializeFuelBalances now u) db).
Proof.
  rewrite initializeFuelBalances_after.
  apply insert_zero_balance_moved, insert_zero_balance_moved, moved_refl.
Qed.

Lemma approveVehicle_moved now vehicleId adminId db :
  moved db (after (storage.approveVehicle now vehicleId adminId) db).
Proof. apply moved_vehicles. right. left. eauto. Qed.

Lemma rejectVehicle_moved vehicleId adminId reason db :
  moved db (after (storage.rejectVehicle vehicleId adminId reason) db).
Proof. apply moved_vehicles. right. right. left. eauto. Qed.

Lemma redeemCoupon_after now code userId db :
  after (storage.redeemCoupon now code userId) db =
  with_coupons (update_where (redeemable code) (storage.set_used now userId) (coupons db)) db.
Proof. unfold after. rewrite redeemCoupon_unfold. simpl. by destruct (first _). Qed.

Lemma redeemCoupon_moved now code userId db :
  moved db (after (storage.redeemCoupon now code userId) db).
Proof. rewrite redeemCoupon_after. apply moved_coupons. right. left. eauto. Qed.

Lemma generate_after fuelType amount db : ∀ draws,
  after (storage.generateUniqueCouponCode draws fuelType amount) db = db.
Proof.
  induction draws as [|r rest IH]; [done|].
  unfold after in *. rewrite generate_step. by destruct (first _).
Qed.

Lemma createCoupon_moved now newId draws data db :
  moved db (after (storage.createCoupon now newId draws data) db).
Proof.
  unfold after.
  destruct (storage.createCoupon now newId draws data db) as [[c|e|] db'] eqn:Hrun; simpl.
  - pose proof (createCoupon_row_inv _ _ _ _ _ _ _ Hrun) as (_ & _ & _ & _ & _ & _ & Hfb & Hvs & Hts).
    apply createCoupon_fulfilled_inv in Hrun as (Hcs & Hfresh & _).
    unfold moved. rewrite Hcs, Hfb, Hvs, Hts.
    split; [|split; [by left|split; [by left|by intros key]]].
    right. right. right. eauto.
  - unfold storage.createCoupon, await in Hrun.
    pose proof (generate_after (InsertCoupon.fuelType data)
                  (parseFloat (InsertCoupon.amount data)) db draws) as Hgen.
    unfold after in Hgen.
    destruct (storage.generateUniqueCouponCode _ _ _ _) as [[code|e'|] db1]; simpl in Hgen;
      subst db1; [|injection Hrun as _ <-; apply moved_refl|done].
    unfold storage.insert_coupon in Hrun. repeat case_decide; try done;
      injection Hrun as _ <-; apply moved_refl.
  - unfold storage.createCoupon, await in Hrun.
    pose proof (generate_after (InsertCoupon.fuelType data)
                  (parseFloat (InsertCoupon.amount data)) db draws) as Hgen.
    unfold after in Hgen.
    destruct (storage.generateUniqueCouponCode _ _ _ _) as [[code|e'|] db1]; simpl in Hgen;
      subst db1; [|done|injection Hrun as <-; apply moved_refl].
    unfold storage.insert_coupon in Hrun. repeat case_decide; done.
Qed.

Lemma createVehicle_moved now newId data db :
  moved db (after (DatabaseStorage.createVehicle now newId data) db).
Proof.
  unfold after.
  destruct (DatabaseStorage.createVehicle now newId data db) as [[v|e|] db'] eqn:Hrun; simpl.
  - apply createVehicle_fulfilled_inv in Hrun
      as (Hvs & Hcs & Hts & Hfb & Hid & Hreg & _ & _ & _ & Hfresh).
    unfold moved. rewrite Hvs, Hcs, Hts, Hfb.
    split; [by left|]. split; [|split; [by left|by intros key]].
    right. right. right. exists v. split; [done|]. rewrite Hid, Hreg. exact Hfresh.
  - unfold DatabaseStorage.createVehicle in Hrun. case_decide; [|done].
    injection Hrun as _ <-. apply moved_refl.
  - unfold DatabaseStorage.createVehicle in Hrun. case_decide; done.
Qed.

Lemma createTransaction_moved now newId data db :
  moved db (after (DatabaseStorage.createTransaction now newId data) db).
Proof.
  unfold after, DatabaseStorage.createTransaction.
  destruct (decide (_ ∧ _)); [|apply moved_refl].
  destruct (decide (Exists _ _)) as [|Hfree]; [apply moved_refl|]. simpl.
  apply moved_transactions. right. right. eexists. split; [done|].
  intros w Hw Hid. apply Hfree, Exists_exists. exists w. by split.
Qed.

Lemma handler_moved_approve now req db :
  moved db (after (routes.patch_vehicle_approve now req) db).
Proof.
  unfold after, routes.patch_vehicle_approve, try_catch.
  destruct (user_id req) as [uid|]; [|apply moved_refl].
  destruct (falsy (Some uid)); [apply moved_refl|].
  unfold await. simpl. apply (approveVehicle_moved now (param "id" req) uid db).
Qed.

Lemma handler_moved_reject now req db :
  moved db (after (routes.patch_vehicle_reject now req) db).
Proof.
  unfold after, routes.patch_vehicle_reject, try_catch.
  destruct (user_id req) as [uid|]; [|apply moved_refl].
  destruct (falsy (Some uid)); [apply moved_refl|].
  unfold await. simpl.
  apply (rejectVehicle_moved (param "id" req) uid (Body.reason (Request.body req)) db).
Qed.

Lemma handler_moved_balances now req db :
  moved db (after (routes.get_fuel_balances now req) db).
Proof.
  unfold after, routes.get_fuel_balances, try_catch.
  destruct (user_id req) as [uid|]; [|apply moved_refl].
  destruct (falsy (Some uid)); [apply moved_refl|].
  unfold await.
  destruct (initializeFuelBalances_spec now uid db) as (db1 & Hrun & _).
  pose proof (initializeFuelBalances_moved now uid db) as Hm.
  unfold after in Hm. rewrite Hrun in *. simpl in *. exact Hm.
Qed.

Lemma handler_moved_balances_2 now req db :
  moved db (after (routes.get_fuel_balances_2 now req) db).
Proof.
  unfold after, routes.get_fuel_balances_2, try_catch.
  destruct (user_id req) as [uid|]; [|apply moved_refl].
  destruct (falsy (Some uid)); apply moved_refl.
Qed.

Lemma handler_moved_redeem now req db :
  moved db (after (routes.post_coupons_redeem now req) db).
Proof.
  unfold after, routes.post_coupons_redeem, try_catch.
  destruct (user_id req) as [uid|]; [|apply moved_refl].
  destruct (falsy (Some uid)); [apply moved_refl|].
  unfold await.
  pose proof (redeemCoupon_moved now (Body.code (Request.body req)) uid db) as Hm.
  unfold after in Hm.
  destruct (storage.redeemCoupon _ _ _ _) as [[c|e|] db1]; simpl in *; [|done..].
  pose proof (updateFuelBalance_moved now uid (Coupon.fuelType c)
                (parseFloat (Coupon.amount c)) db db1 Hm) as Hm'.
  unfold after in Hm'.
  by destruct (storage.updateFuelBalance _ _ _ _ _) as [[row|e|] db2].
Qed.

Lemma dispatch_moved now db : ∀ app req,
  Forall (λ r, ∀ now req db, moved db (after (route_handler r now req) db)) app →
  moved db (after (dispatch app now req) db).
Proof.
  induction app as [|r app IH]; intros req Hall; [apply moved_refl|].
  apply Forall_cons in Hall as [Hr Hall]. simpl.
  destruct (decide _); [|by apply IH].
  destruct (match_path _ _); [apply Hr|by apply IH].
Qed.

Lemma serve_moved now req db : moved db (after (serve now req) db).
Proof.
  apply dispatch_moved. unfold registerRoutes.
  repeat apply Forall_cons_2; [| | | | |apply Forall_nil_2]; simpl; intros.
  - apply handler_moved_balances.
  - apply handler_moved_approve.
  - apply handler_moved_reject.
  - apply handler_moved_balances_2.
  - apply handler_moved_redeem.
Qed.

(** Every call moves the database within the footprints. *)
Lemma exec_moved op db : moved db (exec op db).
Proof.
  destruct op; simpl.
  - apply createVehicle_moved.
  - apply approveVehicle_moved.
  - apply rejectVehicle_moved.
  - apply updateFuelBalance_moved, moved_refl.
  - apply initializeFuelBalances_moved.
  - apply createTransaction_moved.
  - apply moved_transactions. right. left. eauto.
  - apply createCoupon_moved.
  - apply redeemCoupon_moved.
  - apply moved_coupons. right. right. left. eauto.
  - apply serve_moved.
Qed.

Lemma run_snoc ops op db : run (ops ++ [op]) db = exec op (run ops db).
Proof. unfold run. by rewrite foldl_app. Qed.

(** An invariant of single moves is an invariant of histories. *)
Lemma run_invariant (I : Db → Prop) :
  (∀ db db', moved db db' → I db → I db') →
  ∀ ops db, I db → I (run ops db).
Proof.
  intros Hstep ops. induction ops as [|op ops IH] using rev_ind; intros db HI; [done|].
  rewrite run_snoc. apply (Hstep (run ops db)); [apply exec_moved|by apply IH].
Qed.

Lemma fmap_update_where {A B} (g : A → B) (P : A → Prop) `{∀ x, Decision (P x)}
    (f : A → A) (t : list A) :
  (∀ r, g (f r) = g r) → g <$> update_where P f t = g <$> t.
Proof.
  intros Hg. unfold update_where. rewrite <- list_fmap_compose.
  apply list_fmap_ext. intros i r _. simpl. by destruct (decide (P r)).
Qed.

Lemma NoDup_fmap_snoc {A B} (g : A → B) (t : list A) x :
  NoDup (g <$> t) → (∀ r, r ∈ t → g r ≠ g x) → NoDup (g <$> (t ++ [x])%list).
Proof.
  intros Hnd Hfresh. rewrite fmap_app. apply NoDup_app. split; [done|]. split.
  - intros y Hy Hyx. apply list_elem_of_singleton in Hyx as ->.
    apply list_elem_of_fmap in Hy as (r & Hgr & Hr). by apply (Hfresh r).
  - apply NoDup_singleton.
Qed.

Lemma keys_unique_step db db' : moved db db' → keys_unique db → keys_unique db'.
Proof.
  intros (Hc & Hv & Ht & _) (Hcodes & Hids & Hregs & Htids).
  split; [|split; [|split]].
  - destruct Hc as [->|[(now & code & u & ->)|[(id & ->)|(c & -> & Hfresh)]]].
    + done.
    + by rewrite fmap_update_where.
    + by rewrite fmap_update_where.
    + by apply NoDup_fmap_snoc.
  - destruct Hv as [->|[(now & id & a & ->)|[(id & a & r & ->)|(v & -> & Hfresh)]]].
    + done.
    + by rewrite fmap_update_where.
    + by rewrite fmap_update_where.
    + apply NoDup_fmap_snoc; [done|]. intros w Hw. by apply Hfresh.
  - destruct Hv as [->|[(now & id & a & ->)|[(id & a & r & ->)|(v & -> & Hfresh)]]].
    + done.
    + by rewrite fmap_update_where.
    + by rewrite fmap_update_where.
    + apply NoDup_fmap_snoc; [done|]. intros w Hw. by apply Hfresh.
  - destruct Ht as [->|[(id & st & ca & ->)|(x & -> & Hfresh)]].
    + done.
    + by rewrite fmap_update_where.
    + by apply NoDup_fmap_snoc.
Qed.

(** X22. The keys that the schema declares unique stay unique. If no two
    coupons share a code, no two vehicles an id or a registration number
    and no two transactions an id, the same holds after any sequence of
    storage calls and requests to the server. *)
Theorem history_keeps_keys_unique ops db :
  keys_unique db → keys_unique (run ops db).
Proof. apply (run_invariant keys_unique). apply keys_unique_step. Qed.

Lemma history_keeps_keys_unique_witness :
  keys_unique
    (run [CreateVehicle 70 "v-2" new_car; CreateVehicle 80 "v-3" same_plate;
          ApproveVehicle 90 "v-2" "u-root"] garage_db).
Proof.
  apply history_keeps_keys_unique.
  unfold keys_unique. simpl. repeat split; try apply NoDup_nil_2.
  - apply NoDup_singleton.
  - apply NoDup_singleton.
Defined.

Lemma spent_step code db db' : moved db db' → spent code db → spent code db'.
Proof.
  intros (Hc & _) [(c & Hc_in & Hc_code) Hnone]. unfold spent.
  destruct Hc as [->|[(now & code' & u & ->)|[(id & ->)|(c1 & -> & Hfresh)]]].
  - by split; [exists c|].
  - split.
    + destruct (decide (redeemable code' c)).
      * exists (storage.set_used now u c). split; [by apply elem_of_update_where_hit|done].
      * exists c. split; [by apply elem_of_update_where_miss|done].
    + intros c0 Hc0 Hcode.
      apply elem_of_update_where_inv in Hc0 as [(c2 & _ & _ & ->)|[Hc0 _]]; [done|].
      by apply Hnone.
  - split.
    + destruct (decide (Coupon.id c = id)).
      * exists (storage.set_deactivated c).
        split; [by apply elem_of_update_where_hit|done].
      * exists c. split; [by apply elem_of_update_where_miss|done].
    + intros c0 Hc0 Hcode.
      apply elem_of_update_where_inv in Hc0 as [(c2 & _ & _ & ->)|[Hc0 _]]; [done|].
      by apply Hnone.
  - split.
    + exists c. split; [|done]. apply elem_of_app. by left.
    + intros c0 Hc0 Hcode. apply elem_of_app in Hc0 as [Hc0|Hc0]; [by apply Hnone|].
      apply list_elem_of_singleton in Hc0 as ->.
      exfalso. apply (Hfresh c Hc_in). congruence.
Qed.

(** X23. A spent code stays spent. Once a code is on file and no active
    coupon carries it (its coupon was redeemed or deactivated), no
    sequence of storage calls and requests brings it back: the code stays
    on file without an active coupon, so [redeemCoupon] refuses it and
    changes nothing. *)
Theorem spent_code_stays_spent code ops db :
  spent code db →
  spent code (run ops db) ∧
  ∀ now userId,
    storage.redeemCoupon now code userId (run ops db) = (Rejected not_redeemable, run ops db).
Proof.
  intros Hspent.
  assert (spent code (run ops db)) as Hafter.
  { revert Hspent. apply (run_invariant (spent code)). apply spent_step. }
  split; [done|]. intros now userId. apply redeemCoupon_rejected. apply Hafter.
Qed.

Lemma spent_code_stays_spent_witness :
  let db1 := after (storage.redeemCoupon 200 "FUEL-PET-10L-ABCD12" "u-alice") stale_db in
  let ops := [CreateCoupon 210 "c-9" ["0.abcd12"; "0.k3x9q2"] ten_litres;
              DeactivateCoupon "c-1";
              Serve 220 (redeem_request root "FUEL-PET-10L-ABCD12")] in
  storage.redeemCoupon 230 "FUEL-PET-10L-ABCD12" "u-root" (run ops db1) =
    (Rejected not_redeemable, run ops db1).
Proof.
  intros db1 ops.
  apply (spent_code_stays_spent "FUEL-PET-10L-ABCD12" ops db1).
  split.
  - eexists. split; [apply list_elem_of_here|reflexivity].
  - intros c Hc. apply list_elem_of_singleton in Hc as ->. discriminate.
Defined.

Lemma same_coupon_step db db' c :
  moved db db' → c ∈ coupons db → ∃ c', c' ∈ coupons db' ∧ same_coupon c c'.
Proof.
  intros (Hc & _) Hin.
  destruct Hc as [->|[(now & code' & u & ->)|[(id & ->)|(c1 & -> & _)]]].
  - exists c. by split.
  - destruct (decide (redeemable code' c)).
    + exists (storage.set_used now u c). split; [by apply elem_of_update_where_hit|done].
    + exists c. split; [by apply elem_of_update_where_miss|done].
  - destruct (decide (Coupon.id c = id)).
    + exists (storage.set_deactivated c). split; [by apply elem_of_update_where_hit|done].
    + exists c. split; [by apply elem_of_update_where_miss|done].
  - exists c. split; [|done]. apply elem_of_app. by left.
Qed.

Lemma same_vehicle_step db db' v :
  moved db db' → v ∈ vehicles db → ∃ v', v' ∈ vehicles db' ∧ same_vehicle v v'.
Proof.
  intros (_ & Hv & _) Hin.
  destruct Hv as [->|[(now & id & a & ->)|[(id & a & r & ->)|(v1 & -> & _)]]].
  - exists v. by split.
  - destruct (decide (Vehicle.id v = id)).
    + exists (storage.set_approved now a v). split; [by apply elem_of_update_where_hit|done].
    + exists v. split; [by apply elem_of_update_where_miss|done].
  - destruct (decide (Vehicle.id v = id)).
    + exists (storage.set_rejected a r v). split; [by apply elem_of_update_where_hit|done].
    + exists v. split; [by apply elem_of_update_where_miss|done].
  - exists v. split; [|done]. apply elem_of_app. by left.
Qed.

Lemma same_transaction_step db db' t :
  moved db db' → t ∈ transactions db →
  ∃ t', t' ∈ transactions db' ∧ same_transaction t t'.
Proof.
  intros (_ & _ & Ht & _) Hin.
  destruct Ht as [->|[(id & st & ca & ->)|(x & -> & _)]].
  - exists t. by split.
  - destruct (decide (Transaction.id t = id)).
    + exists (storage.set_status st ca t). split; [by apply elem_of_update_where_hit|done].
    + exists t. split; [by apply elem_of_update_where_miss|done].
  - exists t. split; [|done]. apply elem_of_app. by left.
Qed.

(** X24. Nothing is deleted and the essentials are never rewritten. After any
    sequence of storage calls and requests, every coupon that was on file
    is still on file with its id, code, fuel kind, amount and creator;
    every vehicle with its id, registration number, owner and fuel kind;
    every transaction with its id, user, kind, fuel kind, amount and
    monetary value; and every balance row is still there. *)
Theorem history_keeps_records ops db :
  (∀ c, c ∈ coupons db → ∃ c', c' ∈ coupons (run ops db) ∧ same_coupon c c') ∧
  (∀ v, v ∈ vehicles db → ∃ v', v' ∈ vehicles (run ops db) ∧ same_vehicle v v') ∧
  (∀ t, t ∈ transactions db →
        ∃ t', t' ∈ transactions (run ops db) ∧ same_transaction t t') ∧
  balances_kept (fuelBalances db) (fuelBalances (run ops db)).
Proof.
  split; [|split; [|split]].
  - intros c Hc.
    apply (run_invariant (λ d, ∃ c', c' ∈ coupons d ∧ same_coupon c c')); [|by exists c].
    intros d d' Hm (c1 & Hc1 & Hs1).
    destruct (same_coupon_step d d' c1 Hm Hc1) as (c2 & Hc2 & Hs2).
    exists c2. split; [done|]. unfold same_coupon in *. intuition congruence.
  - intros v Hv.
    apply (run_invariant (λ d, ∃ v', v' ∈ vehicles d ∧ same_vehicle v v')); [|by exists v].
    intros d d' Hm (v1 & Hv1 & Hs1).
    destruct (same_vehicle_step d d' v1 Hm Hv1) as (v2 & Hv2 & Hs2).
    exists v2. split; [done|]. unfold same_vehicle in *. intuition congruence.
  - intros t Ht.
    apply (run_invariant (λ d, ∃ t', t' ∈ transactions d ∧ same_transaction t t'));
      [|by exists t].
    intros d d' Hm (t1 & Ht1 & Hs1).
    destruct (same_transaction_step d d' t1 Hm Ht1) as (t2 & Ht2 & Hs2).
    exists t2. split; [done|]. unfold same_transaction in *. intuition congruence.
  - intros key Hkey. revert Hkey.
    apply (run_invariant (λ d, is_Some (fuelBalances d !! key))).
    intros d d' (_ & _ & _ & Hb). apply Hb.
Qed.

(** ** Reading vehicles *)

(** X8. [getVehiclesByOwner], [getUserVehicles] and [getVehiclesByCompany]
    change nothing and return, newest first, exactly the stored vehicles
    of that owner, respectively of that company; a vehicle without a
    company is returned for no company. The first two are the same
    query. *)
Theorem vehicle_queries_select (who : string) db :
  (∃ rows,
     DatabaseStorage.getVehiclesByOwner who db = (Fulfilled rows, db) ∧
     DatabaseStorage.getUserVehicles who db = (Fulfilled rows, db) ∧
     (∀ v, v ∈ rows ↔ v ∈ vehicles db ∧ Vehicle.ownerId v = who) ∧
     StronglySorted (desc Vehicle.createdAt) rows) ∧
  (∃ rows,
     DatabaseStorage.getVehiclesByCompany who db = (Fulfilled rows, db) ∧
     (∀ v, v ∈ rows ↔ v ∈ vehicles db ∧ Vehicle.companyId v = Some who) ∧
     (∀ v, v ∈ rows → Vehicle.companyId v ≠ None) ∧
     StronglySorted (desc Vehicle.createdAt) rows).
Proof.
  split; eexists; (split; [reflexivity|]).
  - split; [reflexivity|]. split; [|apply order_by_desc_sorted].
    intros v. rewrite elem_of_order_by_desc. unfold select_where.
    rewrite list_elem_of_filter. tauto.
  - split; [|split; [|apply order_by_desc_sorted]].
    + intros v. rewrite elem_of_order_by_desc. unfold select_where.
      rewrite list_elem_of_filter. tauto.
    + intros v. rewrite elem_of_order_by_desc. unfold select_where.
      rewrite list_elem_of_filter. intros [Hc _]. congruence.
Qed.

(** X5. [GET /api/vehicles/my] and [GET /api/vehicles/user] give the same
    reply to the same caller, and so do [GET /api/transactions/my] and
    [GET /api/transactions/recent]; for a signed-in user the vehicle
    routes answer 200 with exactly the vehicles that user owns. *)
Theorem twin_routes_agree other now (u : option User.t) db :
  dispatch (all_routes other) now (get_request u ["api"; "vehicles"; "my"]) db =
    dispatch (all_routes other) now (get_request u ["api"; "vehicles"; "user"]) db ∧
  dispatch (all_routes other) now (get_request u ["api"; "transactions"; "my"]) db =
    dispatch (all_routes other) now (get_request u ["api"; "transactions"; "recent"]) db ∧
  (falsy (User.id <$> u) = false →
   ∃ rows,
     dispatch (all_routes other) now (get_request u ["api"; "vehicles"; "my"]) db =
       (Fulfilled (res_json (JArr (vehicle_json <$> rows))), db) ∧
     ∀ v, v ∈ rows ↔ v ∈ vehicles db ∧ Some (Vehicle.ownerId v) = User.id <$> u).
Proof.
  split; [|split].
  - change (handlers.get_vehicles_my now (get_request u ["api"; "vehicles"; "my"]) db =
            handlers.get_vehicles_user now (get_request u ["api"; "vehicles"; "user"]) db).
    unfold handlers.get_vehicles_my, handlers.get_vehicles_user, try_catch, user_id. simpl.
    destruct u as [u|]; simpl; [|done]. by destruct (bool_decide _).
  - change (handlers.get_transactions_my now
              (get_request u ["api"; "transactions"; "my"]) db =
            handlers.get_transactions_recent now
              (get_request u ["api"; "transactions"; "recent"]) db).
    unfold handlers.get_transactions_my, handlers.get_transactions_recent, try_catch,
      user_id. simpl.
    destruct u as [u|]; simpl; [|done]. by destruct (bool_decide _).
  - intros Hu. destruct u as [u|]; [|done]. simpl in Hu.
    change (dispatch (all_routes other) now
              (get_request (Some u) ["api"; "vehicles"; "my"]) db)
      with (handlers.get_vehicles_my now (get_request (Some u) ["api"; "vehicles"; "my"]) db).
    unfold handlers.get_vehicles_my, try_catch, user_id. simpl. rewrite Hu.
    eexists. split; [reflexivity|].
    intros v. rewrite elem_of_order_by_desc. unfold select_where.
    rewrite list_elem_of_filter. split.
    + intros [-> Hin]. done.
    + intros [Hin [= ->]]. done.
Qed.

Lemma twin_routes_agree_witness :
  ∃ rows,
    dispatch (all_routes (λ _, routes.get_fuel_balances)) 60
      (get_request (Some alice) ["api"; "vehicles"; "my"]) garage_db =
      (Fulfilled (res_json (JArr (vehicle_json <$> rows))), garage_db) ∧
    ∀ v, v ∈ rows ↔ v ∈ vehicles garage_db ∧ Some (Vehicle.ownerId v) = Some "u-alice".
Proof.
  apply (twin_routes_agree (λ _, routes.get_fuel_balances) 60 (Some alice) garage_db).
  reflexivity.
Defined.

(** ** Recording transactions *)

Lemma createTransaction_fulfilled_inv now newId data db t db' :
  DatabaseStorage.createTransaction now newId data db = (Fulfilled t, db') →
  transactions db' = (transactions db ++ [t])%list ∧
  Transaction.id t = newId ∧
  Transaction.status t = default "pending" (InsertTransaction.status data) ∧
  Transaction.completedAt t = None ∧
  Transaction.amount t = InsertTransaction.amount data ∧
  decimal_fits (Transaction.amount t) ∧
  (∀ w, w ∈ transactions db → Transaction.id w ≠ newId).
Proof.
  unfold DatabaseStorage.createTransaction.
  destruct (decide (_ ∧ _)) as [[Hfit _]|]; [|done].
  destruct (decide (Exists _ _)) as [|Hfree]; [done|].
  intros [= <- <-]. simpl. repeat split; try done.
  intros w Hw Hid. apply Hfree, Exists_exists. by exists w.
Qed.



(** X7. [getTransactionsByMerchant(merchantId, n)], for [n ≥ 0], returns
    newest first only stored transactions made at that merchant, [n] of
    them or all when there are fewer; a transaction without a merchant is
    never returned. *)
Theorem getTransactionsByMerchant_selects (merchantId : string) (n : Z) (db : Db) :
  (0 ≤ n)%Z →
  ∃ rows,
    DatabaseStorage.getTransactionsByMerchant merchantId n db = (Fulfilled rows, db) ∧
    length rows =
      Nat.min (Z.to_nat n)
        (length (filter (λ t, Transaction.merchantId t = Some merchantId) (transactions db))) ∧
    (∀ t, t ∈ rows → t ∈ transactions db ∧ Transaction.merchantId t = Some merchantId) ∧
    StronglySorted (desc Transaction.createdAt) rows.
Proof.
  intros Hn. unfold DatabaseStorage.getTransactionsByMerchant.
  destruct (limit_order_select_spec Transaction.createdAt
              (λ t, Transaction.merchantId t = Some merchantId) n (transactions db) db Hn)
    as (rows & Hrun & Hlen & Hin & Hsorted & _).
  eauto.
Qed.

Lemma getTransactionsByMerchant_selects_witness :
  ∃ rows,
    DatabaseStorage.getTransactionsByMerchant "m-1" 50 books_db = (Fulfilled rows, books_db) ∧
    length rows = 0%nat.
Proof.
  destruct (getTransactionsByMerchant_selects "m-1" 50 books_db)
    as (rows & Hrun & Hlen & _).
  - lia.
  - exists rows. split; [exact Hrun|exact Hlen].
Defined.
